(** * com.athom.comparison: settings document, token registry and timers

    A shallow embedding of [app.js] (class [App]): the settings document
    with its three lists, the registry of flow tokens, and the START / END
    actions.  JavaScript numbers are binary64 floats, so they are modelled by
    the kernel's primitive floats; the app object and the host it talks to
    are one explicit state threaded through a state-and-exception monad.
    Calls that the source starts without awaiting them leave their
    continuation in the state, to be run when the host answers. *)

From Stdlib Require Import Floats.PrimFloat.
From Stdlib Require Floats.SpecFloat Floats.FloatOps Floats.FloatAxioms.
From stdpp Require Import base option list gmap strings.

Local Open Scope string_scope.
Local Open Scope list_scope.

(** ** JavaScript values *)

(** The values that flow through the app: option fields, entry properties,
    token values.  A [Date] object is represented by its time value. *)
Inductive value : Type :=
  | VUndefined
  | VNull
  | VBool (b : bool)
  | VNum (x : float)
  | VStr (s : string)
  | VDate (t : float).

Definition nan : float := (0 / 0)%float.

(** ToBoolean: [undefined], [null], [false], [0], [-0], [NaN] and the empty
    string are falsy; every object (a [Date]) is truthy. *)
Definition truthy (v : value) : bool :=
  match v with
  | VUndefined | VNull => false
  | VBool b => b
  | VNum x => negb (PrimFloat.eqb x 0 || PrimFloat.is_nan x)
  | VStr s => negb (String.eqb s "")
  | VDate _ => true
  end.

(** [v === s] for a string [s]: strict equality never converts, so only a
    string value with the same characters is equal to [s]. *)
Definition strict_eq_string (v : value) (s : string) : bool :=
  match v with
  | VStr s' => String.eqb s' s
  | _ => false
  end.

(** ** What the app is linked against

    [app.js] requires [./lib/helpers] (formatToken, splitTime) and calls the
    host's translation function [this.homey.__]; the conversions between
    strings and numbers belong to the JavaScript runtime.  None of them is
    defined in [app.js], so the embedding takes them as an environment. *)
Record Env : Type := {
  translate : string -> string;                         (* this.homey.__ *)
  formatToken : string -> string;                       (* lib/helpers *)
  splitTime : float -> (string -> string) -> value;     (* lib/helpers *)
  parseFloat_string : string -> float;                  (* parseFloat on a string *)
  string_toNumber : string -> float;                    (* ToNumber on a string *)
  toFixed : float -> nat -> string                      (* Number.prototype.toFixed *)
}.

(** ** Data model *)

(** An element of [COMPARISONS].  The app writes the properties [token],
    [date] and [comparison]; it reads [name], [date] and [comparison].
    [c_name] is the value of the object's [name] property, [VUndefined] when
    the object has none. *)
Record Comparison : Type := {
  c_name : value;
  c_token : string;
  c_date : value;
  c_comparison : value
}.

(** An element of [TOTALS]: written with [token], [duration], [comparison],
    filtered by [name]. *)
Record Total : Type := {
  t_name : value;
  t_token : string;
  t_duration : value;
  t_comparison : value
}.

Record Settings : Type := {
  VARIABLES : list string;
  COMPARISONS : list Comparison;
  TOTALS : list Total
}.

(** A token handle returned by [homey.flow.createToken].  [tk_value] is the
    last value given to [setValue]; [tk_registered] is cleared by
    [unregister]. *)
Record TokenHandle : Type := {
  tk_type : string;
  tk_title : string;
  tk_value : value;
  tk_registered : bool
}.

(** Requests sent to the host, in the order they are made. *)
Inductive HostCall : Type :=
  | HostCreateToken (id type title : string)
  | HostSetValue (id : string) (v : value)
  | HostUnregister (id : string)
  | HostSettingsSet (s : Settings).

Inductive JsError : Type :=
  | TypeError (msg : string)
  | Error (msg : string)
  | HostError (msg : string).

(** A registration the host has been asked for and has not answered yet:
    what the rest of [createToken] needs once the handle arrives. *)
Record Creation : Type := {
  cr_id : string;
  cr_type : string;
  cr_title : string;
  cr_value : value
}.

(** The app object together with the host state it can observe.
    [appSettings] is [None] while [this.appSettings] is still undefined.
    [stored] is the host's entry under the settings key ([None]: no such
    key), [store_rejects] tells whether the host refuses [settings.set].
    [error_log] collects the arguments of [this.error]; the output of
    [this.log] is not part of the state.  [pending] lists the registrations
    asked for by calls of [createToken] that nobody awaits and that the host
    has not answered yet, oldest first. *)
Record App : Type := {
  appSettings : option Settings;
  TOKENS : gmap string TokenHandle;
  stored : option Settings;
  store_rejects : bool;
  host_calls : list HostCall;
  error_log : list JsError;
  pending : list Creation
}.

Definition with_appSettings (s : option Settings) (a : App) : App :=
  {| appSettings := s; TOKENS := TOKENS a; stored := stored a;
     store_rejects := store_rejects a; host_calls := host_calls a;
     error_log := error_log a; pending := pending a |}.

Definition with_TOKENS (t : gmap string TokenHandle) (a : App) : App :=
  {| appSettings := appSettings a; TOKENS := t; stored := stored a;
     store_rejects := store_rejects a; host_calls := host_calls a;
     error_log := error_log a; pending := pending a |}.

Definition with_stored (s : option Settings) (a : App) : App :=
  {| appSettings := appSettings a; TOKENS := TOKENS a; stored := s;
     store_rejects := store_rejects a; host_calls := host_calls a;
     error_log := error_log a; pending := pending a |}.

Definition with_call (c : HostCall) (a : App) : App :=
  {| appSettings := appSettings a; TOKENS := TOKENS a; stored := stored a;
     store_rejects := store_rejects a; host_calls := host_calls a ++ [c];
     error_log := error_log a; pending := pending a |}.

Definition with_error (e : JsError) (a : App) : App :=
  {| appSettings := appSettings a; TOKENS := TOKENS a; stored := stored a;
     store_rejects := store_rejects a; host_calls := host_calls a;
     error_log := error_log a ++ [e]; pending := pending a |}.

Definition with_pending (p : list Creation) (a : App) : App :=
  {| appSettings := appSettings a; TOKENS := TOKENS a; stored := stored a;
     store_rejects := store_rejects a; host_calls := host_calls a;
     error_log := error_log a; pending := p |}.

Definition set_value (v : value) (h : TokenHandle) : TokenHandle :=
  {| tk_type := tk_type h; tk_title := tk_title h; tk_value := v;
     tk_registered := tk_registered h |}.

Definition set_unregistered (h : TokenHandle) : TokenHandle :=
  {| tk_type := tk_type h; tk_title := tk_title h; tk_value := tk_value h;
     tk_registered := false |}.

(** ** The monad of app methods

    A method either returns or throws, and in both cases leaves a state
    behind.  An awaited call is run to completion.  A call that the source
    starts without awaiting it ([createToken] and [removeToken] inside
    [setTokens]) runs up to its first [await] of the host; what it does
    after the host's answer is kept in [pending] and run by [answered]. *)
Inductive outcome (A : Type) : Type :=
  | Return (a : A)
  | Throw (e : JsError).
Arguments Return {A} a.
Arguments Throw {A} e.

Definition M (A : Type) : Type := App -> outcome A * App.

Definition ret {A} (a : A) : M A := fun st => (Return a, st).

Definition bind {A B} (m : M A) (k : A -> M B) : M B :=
  fun st =>
    match m st with
    | (Return a, st') => k a st'
    | (Throw e, st') => (Throw e, st')
    end.

Definition throw {A} (e : JsError) : M A := fun st => (Throw e, st).

Definition try_catch {A} (body : M A) (handler : JsError -> M A) : M A :=
  fun st =>
    match body st with
    | (Return a, st') => (Return a, st')
    | (Throw e, st') => handler e st'
    end.

Definition gets {A} (f : App -> A) : M A := fun st => (Return (f st), st).

Definition modify (f : App -> App) : M unit := fun st => (Return tt, f st).

Declare Scope js_scope.
Delimit Scope js_scope with js.
Notation "'let!' x ':=' m 'in' k" := (bind m (fun x => k))
  (at level 10, x name, m at level 100, k at level 200) : js_scope.
Notation "m ';;;' k" := (bind m (fun _ => k))
  (at level 100, k at level 200, right associativity) : js_scope.
Local Open Scope js_scope.

(** [array.forEach(f)] *)
Fixpoint forEach {A} (l : list A) (f : A -> M unit) : M unit :=
  match l with
  | [] => ret tt
  | x :: l' => f x ;;; forEach l' f
  end.

(** ** Host primitives *)

(** [this.homey.settings.set(_settingsKey, s)] *)
Definition host_settings_set (s : Settings) : M unit :=
  fun st =>
    let st := with_call (HostSettingsSet s) st in
    if store_rejects st
    then (Throw (HostError "settings.set rejected"), st)
    else (Return tt, with_stored (Some s) st).

(** [this.TOKENS[id] = await this.homey.flow.createToken(id, {type, title})] *)
Definition host_createToken (id type title : string) : M unit :=
  modify (fun st =>
    with_TOKENS
      (<[id := {| tk_type := type; tk_title := title;
                  tk_value := VUndefined; tk_registered := true |}]> (TOKENS st))
      (with_call (HostCreateToken id type title) st)).

(** [this.TOKENS[id].setValue(v)] *)
Definition token_setValue (id : string) (v : value) : M unit :=
  fun st =>
    match TOKENS st !! id with
    | Some h =>
        (Return tt,
         with_TOKENS (<[id := set_value v h]> (TOKENS st))
                     (with_call (HostSetValue id v) st))
    | None =>
        (Throw (TypeError "Cannot read properties of undefined (reading 'setValue')"), st)
    end.

(** [this.TOKENS[id].unregister()] *)
Definition token_unregister (id : string) : M unit :=
  fun st =>
    match TOKENS st !! id with
    | Some h =>
        (Return tt,
         with_TOKENS (<[id := set_unregistered h]> (TOKENS st))
                     (with_call (HostUnregister id) st))
    | None =>
        (Throw (TypeError "Cannot read properties of undefined (reading 'unregister')"), st)
    end.

(** [this.homey.flow.createToken(id, {type, title})] called for [c], the
    answer still to come. *)
Definition host_createToken_asked (c : Creation) : M unit :=
  modify (fun st =>
    with_pending (pending st ++ [c])
      (with_call (HostCreateToken (cr_id c) (cr_type c) (cr_title c)) st)).

(** The rest of [createToken] once the host has answered with the handle:
    [this.TOKENS[id] = handle], then [this.TOKENS[id].setValue(value)]. *)
Definition createToken_resumed (c : Creation) : M unit :=
  modify (fun st =>
    with_TOKENS
      (<[cr_id c := {| tk_type := cr_type c; tk_title := cr_title c;
                       tk_value := VUndefined; tk_registered := true |}]>
         (TOKENS st))
      st) ;;;
  token_setValue (cr_id c) (cr_value c).

(** ** Running a method *)

(** The state a method leaves behind, and its outcome. *)
Definition exec {A} (m : M A) (st : App) : App := snd (m st).
Definition result {A} (m : M A) (st : App) : outcome A := fst (m st).

(** The host answers the pending registrations in the order [order] (a
    permutation of [pending st]); each answer runs the rest of its
    [createToken]. *)
Definition answered (order : list Creation) (st : App) : App :=
  exec (forEach order createToken_resumed) (with_pending [] st).

(** The host answers in the order it was asked. *)
Definition settle (st : App) : App := answered (pending st) st.

(** The host answers one pending registration, the one at index [n]. *)
Definition answer (n : nat) (st : App) : App :=
  match pending st !! n with
  | Some c => exec (createToken_resumed c) (with_pending (delete n (pending st)) st)
  | None => st
  end.

(** The handle a registration leaves in the registry once answered. *)
Definition created_handle (c : Creation) : TokenHandle :=
  {| tk_type := cr_type c; tk_title := cr_title c; tk_value := cr_value c;
     tk_registered := true |}.

(** The registry holds a handle under [id]. *)
Definition held (st : App) (id : string) : bool :=
  match TOKENS st !! id with Some _ => true | None => false end.

(** The state a started [createToken] leaves when its caller goes on: the
    value set on the handle there is, or the registration asked for. *)
Definition started (c : Creation) (st : App) : App :=
  match TOKENS st !! cr_id c with
  | Some h =>
      with_TOKENS (<[cr_id c := set_value (cr_value c) h]> (TOKENS st))
                  (with_call (HostSetValue (cr_id c) (cr_value c)) st)
  | None =>
      with_pending (pending st ++ [c])
                   (with_call (HostCreateToken (cr_id c) (cr_type c) (cr_title c)) st)
  end.

(** The state [removeToken] leaves for the identifier [id]. *)
Definition removed (id : string) (st : App) : App :=
  match TOKENS st !! id with
  | Some h =>
      with_TOKENS (<[id := set_unregistered h]> (TOKENS st))
                  (with_call (HostUnregister id) st)
  | None => st
  end.

(** The state the answer to the registration [c] leaves. *)
Definition resumed (c : Creation) (st : App) : App :=
  with_TOKENS (<[cr_id c := created_handle c]> (TOKENS st))
              (with_call (HostSetValue (cr_id c) (cr_value c)) st).

(** Several calls started, several identifiers removed, several answers
    received, one after the other. *)
Definition started_all (cs : list Creation) (st : App) : App :=
  foldl (fun s c => started c s) st cs.

Definition removed_all (ids : list string) (st : App) : App :=
  foldl (fun s id => removed id s) st ids.

Definition resumed_all (cs : list Creation) (st : App) : App :=
  foldl (fun s c => resumed c s) st cs.

(** The host call a started [createToken] makes in [st]. *)
Definition start_call (st : App) (c : Creation) : HostCall :=
  if held st (cr_id c)
  then HostSetValue (cr_id c) (cr_value c)
  else HostCreateToken (cr_id c) (cr_type c) (cr_title c).

(** The unregistrations [removeToken] asks for, called for each of [ids]
    in [st]: one for each identifier the registry holds. *)
Definition unregistrations (st : App) (ids : list string) : list HostCall :=
  map HostUnregister (List.filter (held st) ids).

(** The registrations the host is asked for by the calls [cs] when the
    registry holds none of their identifiers. *)
Definition registrations (cs : list Creation) : list HostCall :=
  map (fun c => HostCreateToken (cr_id c) (cr_type c) (cr_title c)) cs.

(** The [setValue] calls the answers to the registrations [cs] are followed
    by. *)
Definition value_sets (cs : list Creation) : list HostCall :=
  map (fun c => HostSetValue (cr_id c) (cr_value c)) cs.

(** ** Notions used in the statements *)

(** The four kinds of token kept per tracked name. *)
Definition kinds : list string :=
  ["duration"; "currency"; "comparison"; "calculation"].

(** The settings, the store and the error log are the same in both states. *)
Definition same_settings (st st' : App) : Prop :=
  appSettings st' = appSettings st /\ stored st' = stored st /\
  store_rejects st' = store_rejects st /\ error_log st' = error_log st.

(** The state after the first two statements of the [try] block: the
    in-memory document replaced and the host asked to store it. *)
Definition replaced (settings : Settings) (st : App) : App :=
  with_call (HostSettingsSet settings) (with_appSettings (Some settings) st).

(** ** The methods of [App] *)

Section App.

Variable E : Env.

(** ToNumber, as the [-] operator applies it to its operands. *)
Definition toNumber (v : value) : float :=
  match v with
  | VUndefined => nan
  | VNull => 0
  | VBool b => if b then 1 else 0
  | VNum x => x
  | VStr s => string_toNumber E s
  | VDate t => t
  end.

(** [parseFloat(v)] converts [v] to a string and parses the longest numeric
    prefix.  A number prints to a string that parses back to itself, except
    that [-0] prints as ["0"]; ["undefined"], ["null"], ["true"], ["false"]
    and a date's text have no numeric prefix. *)
Definition parseFloat (v : value) : float :=
  match v with
  | VNum x => if PrimFloat.eqb x 0 then 0%float else x
  | VStr s => parseFloat_string E s
  | VUndefined | VNull | VBool _ | VDate _ => nan
  end.

(** *** Token registry *)

(** The option object of [createToken]; an absent property is [None]. *)
Record TokenOptions : Type := {
  o_src : option string;
  o_value : option value;
  o_type : option string
}.

(** [`helpers.${src}`]: the default [src] is [null], which prints as
    ["null"]. *)
Definition helpers_key (src : option string) : string :=
  "helpers." +:+ default "null" src.

(** [formatToken(`${name} ${suffix}`)] with [suffix = __(`helpers.${src}`)],
    the identifier both [createToken] and [removeToken] compute. *)
Definition token_title (name : string) (src : option string) : string :=
  name +:+ " " +:+ translate E (helpers_key src).

Definition token_id (name : string) (src : option string) : string :=
  formatToken E (token_title name src).

Definition createToken (name : string) (paramOptions : TokenOptions) : M unit :=
  (* { ...defaultOptions, ...paramOptions } *)
  let src := o_src paramOptions in
  let value := default VNull (o_value paramOptions) in
  let type := default "string" (o_type paramOptions) in
  let title := token_title name src in
  let id := formatToken E title in
  let! tokens := gets TOKENS in
  (match tokens !! id with
   | None => host_createToken id type title
   | Some _ => ret tt
   end) ;;;
  token_setValue id value.

(** [createToken(name, paramOptions)] called without [await]: the caller
    goes on as soon as the call reaches its first [await].  Without a handle
    in the registry that is the [await] of the host's [createToken]: the
    assignment and [setValue] follow when the host answers.  With a handle
    it is the [await] of [setValue], which has been called by then. *)
Definition createToken_start (name : string) (paramOptions : TokenOptions) : M unit :=
  let src := o_src paramOptions in
  let value := default VNull (o_value paramOptions) in
  let type := default "string" (o_type paramOptions) in
  let title := token_title name src in
  let id := formatToken E title in
  let! tokens := gets TOKENS in
  match tokens !! id with
  | None =>
      host_createToken_asked
        {| cr_id := id; cr_type := type; cr_title := title; cr_value := value |}
  | Some _ => token_setValue id value
  end.

(** [removeToken(name, src)]; its only [await] is that of [unregister],
    after which it only logs, so it is the same awaited or not. *)
Definition removeToken (name : string) (src : string) : M unit :=
  let title := token_title name (Some src) in
  let id := formatToken E title in
  let! tokens := gets TOKENS in
  match tokens !! id with
  | Some _ => token_unregister id
  | None => ret tt
  end.

Definition opts (src : string) : TokenOptions :=
  {| o_src := Some src; o_value := None; o_type := None |}.

Definition opts_typed (src type : string) : TokenOptions :=
  {| o_src := Some src; o_value := None; o_type := Some type |}.

(** [newSettings.includes(x)] *)
Definition includes (l : list string) (x : string) : bool :=
  existsb (String.eqb x) l.

(** [setTokens(newSettings, oldSettings = [])]: none of the calls in the
    two loops is awaited. *)
Definition setTokens (newSettings oldSettings : list string) : M unit :=
  forEach newSettings (fun t =>
    createToken_start t (opts "duration") ;;;
    createToken_start t (opts_typed "currency" "string") ;;;
    createToken_start t (opts_typed "comparison" "number") ;;;
    createToken_start t (opts_typed "calculation" "number")) ;;;
  if negb (Nat.eqb (length oldSettings) 0) then
    let difference := List.filter (fun x => negb (includes newSettings x)) oldSettings in
    forEach difference (fun d =>
      removeToken d "duration" ;;;
      removeToken d "currency" ;;;
      removeToken d "comparison" ;;;
      removeToken d "calculation")
  else ret tt.

(** *** Settings *)

(** [this.error(err)] *)
Definition error (err : JsError) : M unit := modify (with_error err).

(** Reading a property of [this.appSettings] throws while it is undefined. *)
Definition read_appSettings : M Settings :=
  let! s := gets appSettings in
  match s with
  | Some s => ret s
  | None => throw (TypeError "Cannot read properties of undefined")
  end.

(** [updateSettings(settings, update = false)] *)
Definition updateSettings (settings : Settings) (update : bool) : M unit :=
  try_catch
    (let! oldSettings := gets appSettings in
     modify (with_appSettings (Some settings)) ;;;
     host_settings_set settings ;;;
     if update then
       match oldSettings with
       | Some old => setTokens (VARIABLES settings) (VARIABLES old)
       | None => throw (TypeError "Cannot read properties of undefined (reading 'VARIABLES')")
       end
     else ret tt)
    (fun err => error err).

Definition default_settings : Settings :=
  {| VARIABLES := []; COMPARISONS := []; TOTALS := [] |}.

(** What the app finds on the host when it starts: the entry under the
    settings key, and whether the host will refuse to write it. *)
Record HostStore : Type := {
  host_stored : option Settings;
  host_rejects : bool
}.

(** The app object once [initSettings] has run [this.TOKENS = {}]: before
    that statement the app has no registry at all.  [this.appSettings] is
    still undefined and nothing has been asked of the host. *)
Definition app_created (h : HostStore) : App :=
  {| appSettings := None; TOKENS := ∅; stored := host_stored h;
     store_rejects := host_rejects h; host_calls := []; error_log := [];
     pending := [] |}.

(** [initSettings()], on the app as the host starts it. *)
Definition initSettings (h : HostStore) : outcome unit * App :=
  try_catch
    (let! found := gets stored in
     match found with
     | Some s => modify (with_appSettings (Some s))
     | None => updateSettings default_settings false
     end)
    (fun err => error err)
    (app_created h).

(** [onInit()].  [flowActions.init(this)] of [./lib/flows/actions] is not
    defined in [app.js]; it is given the app and may do anything with it, so
    it is a parameter. *)
Definition onInit (flowActions_init : M unit) (h : HostStore) : outcome unit * App :=
  match initSettings h with
  | (Return _, st) =>
      (let! s := read_appSettings in
       setTokens (VARIABLES s) [] ;;;
       flowActions_init) st
  | (Throw e, st) => (Throw e, st)
  end.

(** *** Timers *)

(** [calculateDuration(startDate, endDate)] *)
Definition calculateDuration (startDate endDate : value) : value :=
  let diffInMilliseconds :=
    (PrimFloat.abs (toNumber startDate - toNumber endDate) / 1000)%float in
  splitTime E diffInMilliseconds (translate E).

(** [calculateComparison(start, end)] *)
Definition calculateComparison (start end_ : value) : value :=
  let comparison := (parseFloat end_ - parseFloat start)%float in
  if truthy (VNum comparison) then VStr (toFixed E comparison 2) else VNum 0.

(** The option object of [action_START]. *)
Record StartOptions : Type := {
  o_dateStart : option value;
  o_comparison : option value
}.

(** [action_START(token, paramOptions)]; [now] is what [new Date()] reads
    from the clock. *)
Definition action_START (token : string) (paramOptions : StartOptions)
    (now : float) : M unit :=
  let dateStart := default VNull (o_dateStart paramOptions) in
  let comparison := default VNull (o_comparison paramOptions) in
  let date := if truthy dateStart then VDate now else dateStart in
  let! appSettings := read_appSettings in
  let newSettings :=
    List.filter (fun setting => negb (strict_eq_string (c_name setting) token))
                (COMPARISONS appSettings) in
  updateSettings
    {| VARIABLES := VARIABLES appSettings;
       COMPARISONS := newSettings ++
         [{| c_name := VUndefined; c_token := token; c_date := date;
             c_comparison := comparison |}];
       TOTALS := TOTALS appSettings |}
    false.

(** [action_END(token, value = null)] *)
Definition action_END (token : string) (value : value) (now : float) : M unit :=
  let! appSettings := read_appSettings in
  let existing_comparison :=
    List.find (fun x => strict_eq_string (c_name x) token) (COMPARISONS appSettings) in
  (* const date = existing_comparison.date ? new Date() : null; *)
  let! date :=
    match existing_comparison with
    | Some ec => ret (if truthy (c_date ec) then VDate now else VNull)
    | None => throw (TypeError "Cannot read properties of undefined (reading 'date')")
    end in
  (* if (!existing_comparison) throw new Error(...) *)
  match existing_comparison with
  | None => throw (Error ("No comparison found for " +:+ token))
  | Some existing_comparison =>
      let duration :=
        if truthy date then calculateDuration (c_date existing_comparison) date
        else VNull in
      let comparison :=
        if truthy value
        then calculateComparison (c_comparison existing_comparison) value
        else VNull in
      let totals :=
        List.filter (fun total => negb (strict_eq_string (t_name total) token))
                    (TOTALS appSettings) in
      updateSettings
        {| VARIABLES := VARIABLES appSettings;
           COMPARISONS := COMPARISONS appSettings;
           TOTALS := totals ++
             [{| t_name := VUndefined; t_token := token; t_duration := duration;
                 t_comparison := comparison |}] |}
        false ;;;
      createToken token
        {| o_src := Some "duration"; o_value := Some duration; o_type := None |} ;;;
      if truthy comparison then
        createToken token
          {| o_src := Some "comparison"; o_value := Some (VNum (parseFloat comparison));
             o_type := Some "number" |}
      else ret tt
  end.

(** *** Notions derived from the methods *)

(** The entry [action_START] appends. *)
Definition started_entry (token : string) (o : StartOptions) (now : float) : Comparison :=
  let dateStart := default VNull (o_dateStart o) in
  {| c_name := VUndefined; c_token := token;
     c_date := if truthy dateStart then VDate now else dateStart;
     c_comparison := default VNull (o_comparison o) |}.

(** The callbacks of the two [forEach] loops of [setTokens]. *)
Definition create_four (t : string) : M unit :=
  createToken_start t (opts "duration") ;;;
  createToken_start t (opts_typed "currency" "string") ;;;
  createToken_start t (opts_typed "comparison" "number") ;;;
  createToken_start t (opts_typed "calculation" "number").

Definition remove_four (d : string) : M unit :=
  removeToken d "duration" ;;;
  removeToken d "currency" ;;;
  removeToken d "comparison" ;;;
  removeToken d "calculation".

Definition difference (newSettings oldSettings : list string) : list string :=
  List.filter (fun x => negb (includes newSettings x)) oldSettings.

(** The registration [createToken(name, o)] asks for when the registry has
    no handle. *)
Definition creation (name : string) (o : TokenOptions) : Creation :=
  {| cr_id := token_id name (o_src o); cr_type := default "string" (o_type o);
     cr_title := token_title name (o_src o);
     cr_value := default VNull (o_value o) |}.

(** The four tokens [setTokens] creates for a name, in the order of its
    calls, and those of a list of names. *)
Definition four_creations (t : string) : list Creation :=
  [creation t (opts "duration"); creation t (opts_typed "currency" "string");
   creation t (opts_typed "comparison" "number");
   creation t (opts_typed "calculation" "number")].

Definition token_specs (names : list string) : list Creation :=
  flat_map four_creations names.

Definition token_ids (names : list string) : list string :=
  map cr_id (token_specs names).

(** The entry [action_END] appends to [TOTALS]. *)
Definition ended_total (token : string) (ec : Comparison) (value : value)
    (now : float) : Total :=
  let date := if truthy (c_date ec) then VDate now else VNull in
  {| t_name := VUndefined; t_token := token;
     t_duration :=
       if truthy date then calculateDuration (c_date ec) date else VNull;
     t_comparison :=
       if truthy value then calculateComparison (c_comparison ec) value
       else VNull |}.

End App.

(** ** The stateless actions and the calls of the host *)

(** [action_CALCULATION] calls [calculationType] of [./lib/helpers], and
    [action_SET_CURRENCY] calls [Number.prototype.toLocaleString] with the
    locale and the currency; neither is defined in [app.js], and each may
    return or throw. *)
Record Lib : Type := {
  calculationType : value -> value -> value -> outcome value;
  toLocaleString : value -> string -> value -> outcome value
}.

(** A call into code outside the app, whose outcome is returned or thrown. *)
Definition call_out {A} (r : outcome A) : M A := fun st => (r, st).

Section Actions.

Variable E : Env.
Variable L : Lib.

(** [action_SET_CURRENCY(token, number, currency)] *)
Definition action_SET_CURRENCY (token : string) (number currency : value) : M unit :=
  let! setLocalCurrency :=
    call_out (toLocaleString L number (translate E "helpers.locale") currency) in
  createToken E token
    {| o_src := Some "currency"; o_value := Some setLocalCurrency; o_type := None |}.

(** [action_CALCULATION(token, calcType, number1, number2)] *)
Definition action_CALCULATION (token : string) (calcType number1 number2 : value)
    : M unit :=
  let! calculation := call_out (calculationType L calcType number1 number2) in
  createToken E token
    {| o_src := Some "calculation"; o_value := Some calculation; o_type := None |}.

(** The four operations the flow cards invoke. *)
Inductive flow_action : Type :=
  | START (token : string) (o : StartOptions) (now : float)
  | END (token : string) (value : value) (now : float)
  | SET_CURRENCY (token : string) (number currency : value)
  | CALCULATION (token : string) (calcType number1 number2 : value).

Definition run_action (a : flow_action) : M unit :=
  match a with
  | START token o now => action_START E token o now
  | END token value now => action_END E token value now
  | SET_CURRENCY token number currency => action_SET_CURRENCY token number currency
  | CALCULATION token calcType number1 number2 =>
      action_CALCULATION token calcType number1 number2
  end.

(** What the host can ask of the initialised app: a flow action, or a new
    settings document. *)
Inductive app_call : Type :=
  | FlowAction (a : flow_action)
  | SettingsUpdate (settings : Settings) (update : bool).

Definition run_call (c : app_call) : M unit :=
  match c with
  | FlowAction a => run_action a
  | SettingsUpdate settings update => updateSettings E settings update
  end.

(** The calls are run one after the other; a call that throws leaves its
    state to the next one. *)
Fixpoint run_calls (cs : list app_call) (st : App) : App :=
  match cs with
  | [] => st
  | c :: cs => run_calls cs (exec (run_call c) st)
  end.

(** What happens to the initialised app: the host calls it, or the host
    answers a registration the app is waiting for. *)
Inductive app_event : Type :=
  | HostCalls (c : app_call)
  | HostAnswers (n : nat).

Fixpoint run_events (es : list app_event) (st : App) : App :=
  match es with
  | [] => st
  | HostCalls c :: es => run_events es (exec (run_call c) st)
  | HostAnswers n :: es => run_events es (answer n st)
  end.

End Actions.

(** [h'] is the handle [h] after some calls: same type and title, and not
    registered again once unregistered. *)
Definition handle_kept (h h' : TokenHandle) : Prop :=
  tk_type h' = tk_type h /\ tk_title h' = tk_title h /\
  (tk_registered h = false -> tk_registered h' = false).

(** Every handle of the registry of [st] is still held in [st']. *)
Definition registry_kept (st st' : App) : Prop :=
  forall id,
    match TOKENS st !! id with
    | Some h => exists h', TOKENS st' !! id = Some h' /\ handle_kept h h'
    | None => True
    end.

(** No entry of the document has a [name] property: the shape of every
    entry the app writes itself. *)
Definition unnamed (s : Settings) : Prop :=
  Forall (fun e => c_name e = VUndefined) (COMPARISONS s) /\
  Forall (fun t => t_name t = VUndefined) (TOTALS s).

(** [id] is the identifier of one of the four tokens of a name in [names]. *)
Definition token_of (E : Env) (names : list string) (id : string) : Prop :=
  exists name kind, name ∈ names /\ kind ∈ kinds /\ id = token_id E name (Some kind).

(** The host calls a reconciliation may make: registering or resetting a
    token of a name in [names], unregistering a token of a name in
    [dropped]. *)
Definition reconciles (E : Env) (names dropped : list string) (c : HostCall) : Prop :=
  match c with
  | HostCreateToken id _ _ => token_of E names id
  | HostSetValue id v => v = VNull /\ token_of E names id
  | HostUnregister id => token_of E dropped id
  | HostSettingsSet _ => False
  end.

(** The entry [e] belongs to another name than [token]: neither the [token]
    it was written with nor a [name] property it may carry is [token]. *)
Definition of_other_name (token : string) (e : Comparison) : bool :=
  negb (String.eqb (c_token e) token) && negb (strict_eq_string (c_name e) token).

(** The entries the STARTs among [acts] append, in order. *)
Fixpoint started_entries (acts : list flow_action) : list Comparison :=
  match acts with
  | [] => []
  | START token o now :: acts => started_entry token o now :: started_entries acts
  | _ :: acts => started_entries acts
  end.

(** ** Concrete inputs *)

(** A sample environment, used to evaluate the methods on concrete inputs:
    English suffixes, identifiers equal to titles, durations left as the
    number of seconds.  None of the inputs evaluated below reaches a
    conversion between strings and numbers; the sample environment gives
    these fixed results. *)
Definition sample_translate (key : string) : string :=
  if String.eqb key "helpers.duration" then "Duration"
  else if String.eqb key "helpers.currency" then "Currency"
  else if String.eqb key "helpers.comparison" then "Comparison"
  else if String.eqb key "helpers.calculation" then "Calculation"
  else key.

Definition sample_env : Env :=
  {| translate := sample_translate;
     formatToken := fun title => title;
     splitTime := fun ms _ => VNum ms;
     parseFloat_string := fun _ => nan;
     string_toNumber := fun _ => nan;
     toFixed := fun _ _ => "0.00" |}.

(** A host that has no settings yet and accepts writes. *)
Definition fresh_host : HostStore :=
  {| host_stored := None; host_rejects := false |}.

(** The app after [onInit] on that host, with a [flowActions.init] that
    leaves the app alone. *)
Definition initialised_app : App := snd (onInit sample_env (ret tt) fresh_host).

(** The initialised app after the token ["a Duration"] has been created. *)
Definition app_with_a_duration : App :=
  exec (createToken sample_env "a" (opts "duration")) initialised_app.

(** The initialised app after [a] and [b] have been reconciled and the host
    has answered. *)
Definition app_tracking_a_b : App :=
  settle (exec (setTokens sample_env ["a"; "b"] []) initialised_app).

(** Options of a START that starts the timer and gives the baseline 5. *)
Definition start_timer_5 : StartOptions :=
  {| o_dateStart := Some (VBool true); o_comparison := Some (VNum 5) |}.

(** The initialised app after a START for ["b"] at clock 500, and the
    document it then holds. *)
Definition app_timing_b : App :=
  exec (action_START sample_env "b" start_timer_5 500) initialised_app.

Definition doc_timing_b : Settings :=
  {| VARIABLES := [];
     COMPARISONS :=
       [{| c_name := VUndefined; c_token := "b"; c_date := VDate 500;
           c_comparison := VNum 5 |}];
     TOTALS := [] |}.

(** A document as the store can hold it: its entry carries a [name]. *)
Definition stored_named_entry : Settings :=
  {| VARIABLES := ["a"];
     COMPARISONS :=
       [{| c_name := VStr "a"; c_token := "a"; c_date := VNull;
           c_comparison := VNum 5 |}];
     TOTALS := [] |}.

(** The app started on a host that stores this document, once the host
    has answered. *)
Definition app_with_named_entry : App :=
  settle (snd (onInit sample_env (ret tt)
                 {| host_stored := Some stored_named_entry;
                    host_rejects := false |})).

(** A sample library: a calculation that adds, and a currency text that
    throws on a missing currency code. *)
Definition sample_lib : Lib :=
  {| calculationType := fun _ number1 number2 =>
       match number1, number2 with
       | VNum x, VNum y => Return (VNum (x + y))
       | _, _ => Throw (Error "not a number")
       end;
     toLocaleString := fun number _ currency =>
       match currency with
       | VStr code => Return (VStr code)
       | _ => Throw (TypeError "Currency code is required with currency style.")
       end |}.


(** A document that tracks [names] and has no entries. *)
Definition doc_tracking (names : list string) : Settings :=
  {| VARIABLES := names; COMPARISONS := []; TOTALS := [] |}.

(** The initialised app after the settings page has sent a document that
    tracks [a] and [b], the host has answered the registrations, and a
    calculation has published 3 on the calculation token of [a]. *)
Definition app_updated_a_b : App :=
  exec (action_CALCULATION sample_env sample_lib "a" (VStr "add") (VNum 1) (VNum 2))
    (settle (exec (updateSettings sample_env (doc_tracking ["a"; "b"]) true)
               initialised_app)).

(** An environment whose [formatToken] gives every title the same
    identifier: the extreme case of identifiers that collide. *)
Definition merging_env : Env :=
  {| translate := sample_translate;
     formatToken := fun _ => "token";
     splitTime := fun ms _ => VNum ms;
     parseFloat_string := fun _ => nan;
     string_toNumber := fun _ => nan;
     toFixed := fun _ _ => "0.00" |}.
(** ** Lemmas on the registry *)

Section Registry.

Variable E : Env.

Lemma createToken_run name o st :
  let id := token_id E name (o_src o) in
  let v := default VNull (o_value o) in
  let type := default "string" (o_type o) in
  let title := token_title E name (o_src o) in
  exists st',
    createToken E name o st = (Return tt, st') /\
    appSettings st' = appSettings st /\ stored st' = stored st /\
    store_rejects st' = store_rejects st /\ error_log st' = error_log st /\
    match TOKENS st !! id with
    | None =>
        TOKENS st' =
          <[id := {| tk_type := type; tk_title := title; tk_value := v;
                     tk_registered := true |}]> (TOKENS st) /\
        host_calls st' =
          host_calls st ++ [HostCreateToken id type title; HostSetValue id v]
    | Some h =>
        TOKENS st' = <[id := set_value v h]> (TOKENS st) /\
        host_calls st' = host_calls st ++ [HostSetValue id v]
    end.
Proof.
  intros id v type title.
  unfold createToken, bind, gets. fold title. fold id. fold v. fold type.
  replace (formatToken E title) with id by reflexivity.
  destruct (TOKENS st !! id) as [h|] eqn:Hid; cbn.
  - unfold token_setValue. rewrite Hid. eexists; repeat split.
  - unfold token_setValue; cbn. rewrite lookup_insert_eq.
    eexists; repeat split; cbn.
    + by rewrite insert_insert_eq.
    + by rewrite <- app_assoc.
Qed.

Lemma removeToken_run name src st :
  let id := token_id E name (Some src) in
  exists st',
    removeToken E name src st = (Return tt, st') /\
    appSettings st' = appSettings st /\ stored st' = stored st /\
    store_rejects st' = store_rejects st /\ error_log st' = error_log st /\
    match TOKENS st !! id with
    | None => st' = st
    | Some h =>
        TOKENS st' = <[id := set_unregistered h]> (TOKENS st) /\
        host_calls st' = host_calls st ++ [HostUnregister id]
    end.
Proof.
  intros id. unfold removeToken, bind, gets; cbn.
  replace (formatToken E (token_title E name (Some src))) with id by reflexivity.
  destruct (TOKENS st !! id) as [h|] eqn:Hid; cbn.
  - unfold token_unregister. rewrite Hid. eexists; repeat split.
  - eexists; repeat split.
Qed.

End Registry.

(** ** createToken and removeToken *)

(** C5. [createToken] asks the host to register a token only when the
    registry has no handle under the derived identifier, and otherwise keeps
    the handle it has; in both cases it then sets the handle's value to the
    value of the options ([null] by default), whatever the handle held
    before.  It always returns normally. *)
Theorem createToken_registers_once_and_sets_value (E : Env) name o st :
  let id := token_id E name (o_src o) in
  let v := default VNull (o_value o) in
  let type := default "string" (o_type o) in
  let title := token_title E name (o_src o) in
  let st' := exec (createToken E name o) st in
  result (createToken E name o) st = Return tt /\
  match TOKENS st !! id with
  | None =>
      host_calls st' =
        host_calls st ++ [HostCreateToken id type title; HostSetValue id v] /\
      TOKENS st' =
        <[id := {| tk_type := type; tk_title := title; tk_value := v;
                   tk_registered := true |}]> (TOKENS st)
  | Some h =>
      host_calls st' = host_calls st ++ [HostSetValue id v] /\
      TOKENS st' = <[id := set_value v h]> (TOKENS st)
  end /\
  (exists h', TOKENS st' !! id = Some h' /\ tk_value h' = v).
Proof.
  intros id v type title st'.
  destruct (createToken_run E name o st) as (st1 & Hrun & _ & _ & _ & _ & Hcase).
  unfold st', exec, result. rewrite Hrun. cbn [fst snd].
  fold id v type title in Hcase.
  split; [reflexivity|].
  destruct (TOKENS st !! id) as [h|]; destruct Hcase as [Ht Hc]; rewrite Ht.
  - split; [by split|]. exists (set_value v h). by rewrite lookup_insert_eq.
  - split; [by split|]. eexists. rewrite lookup_insert_eq. by split.
Qed.

(** C6, as stated, fails: after [removeToken] the registry still holds a
    handle under the identifier. *)
Lemma removeToken_keeps_handle_example :
  let st' := exec (removeToken sample_env "a" "duration") app_with_a_duration in
  token_id sample_env "a" (Some "duration") = "a Duration" /\
  TOKENS app_with_a_duration !! "a Duration" =
    Some {| tk_type := "string"; tk_title := "a Duration"; tk_value := VNull;
            tk_registered := true |} /\
  TOKENS st' !! "a Duration" =
    Some {| tk_type := "string"; tk_title := "a Duration"; tk_value := VNull;
            tk_registered := false |} /\
  TOKENS st' !! "a Duration" <> None.
Proof. vm_compute. repeat split. discriminate. Qed.

(** C6, amended. [removeToken] computes the identifier [createToken]
    computes for the same name and kind.  When the registry holds a handle
    under it, the host is asked to unregister the token and the handle stays
    in the registry, marked unregistered; when it holds none, nothing
    happens.  It returns normally in both cases. *)
Theorem removeToken_unregisters_and_keeps_handle (E : Env) name src st :
  let id := token_id E name (Some src) in
  let st' := exec (removeToken E name src) st in
  result (removeToken E name src) st = Return tt /\
  id = token_id E name (o_src (opts src)) /\
  match TOKENS st !! id with
  | Some h =>
      host_calls st' = host_calls st ++ [HostUnregister id] /\
      TOKENS st' = <[id := set_unregistered h]> (TOKENS st) /\
      TOKENS st' !! id = Some (set_unregistered h)
  | None => st' = st
  end.
Proof.
  intros id st'.
  destruct (removeToken_run E name src st) as (st1 & Hrun & _ & _ & _ & _ & Hcase).
  unfold st', exec, result. rewrite Hrun. cbn [fst snd].
  fold id in Hcase.
  split; [reflexivity|]. split; [reflexivity|].
  destruct (TOKENS st !! id) as [h|]; [|exact Hcase].
  destruct Hcase as [Ht Hc]. rewrite Ht, lookup_insert_eq. by repeat split.
Qed.

(** ** Calls that are not awaited *)

Lemma bind_run {A B} (m : M A) (k : A -> M B) st a st' :
  m st = (Return a, st') -> bind m k st = k a st'.
Proof. intros H. unfold bind. by rewrite H. Qed.

(** A loop whose callback always returns is a fold of the states it
    leaves. *)
Lemma forEach_foldl {A} (f : A -> M unit) (g : A -> App -> App)
    (l : list A) (st : App) :
  (forall x s, f x s = (Return tt, g x s)) ->
  forEach l f st = (Return tt, foldl (fun s x => g x s) st l).
Proof.
  intros H. revert st. induction l as [|x l IH]; intros st; cbn; [done|].
  rewrite (bind_run _ _ _ _ _ (H x st)). apply IH.
Qed.

Lemma foldl_flat_map {A B} (f : App -> B -> App) (h : A -> list B)
    (l : list A) (st : App) :
  foldl (fun s x => foldl f s (h x)) st l = foldl f st (flat_map h l).
Proof.
  revert st. induction l as [|x l IH]; intros st; cbn; [done|].
  by rewrite foldl_app, IH.
Qed.

Lemma set_value_same h : set_value (tk_value h) h = h.
Proof. by destruct h. Qed.

Section NotAwaited.

Variable E : Env.

Lemma createToken_start_run name o st :
  createToken_start E name o st = (Return tt, started (creation E name o) st).
Proof.
  unfold createToken_start, started, creation, bind, gets, token_id; cbn.
  destruct (TOKENS st !! formatToken E (token_title E name (o_src o))) as [h|] eqn:Hid.
  - unfold token_setValue. by rewrite Hid.
  - reflexivity.
Qed.

Lemma removeToken_removed name src st :
  removeToken E name src st = (Return tt, removed (token_id E name (Some src)) st).
Proof.
  unfold removeToken, removed, bind, gets, token_id; cbn.
  destruct (TOKENS st !! formatToken E (token_title E name (Some src))) as [h|] eqn:Hid.
  - unfold token_unregister. by rewrite Hid.
  - reflexivity.
Qed.

Lemma create_four_run t st :
  create_four E t st = (Return tt, started_all (four_creations E t) st).
Proof.
  unfold create_four.
  rewrite (bind_run _ _ _ _ _ (createToken_start_run _ _ _)).
  rewrite (bind_run _ _ _ _ _ (createToken_start_run _ _ _)).
  rewrite (bind_run _ _ _ _ _ (createToken_start_run _ _ _)).
  by rewrite createToken_start_run.
Qed.

Lemma remove_four_run d st :
  remove_four E d st =
  (Return tt, removed_all (map cr_id (four_creations E d)) st).
Proof.
  unfold remove_four.
  rewrite (bind_run _ _ _ _ _ (removeToken_removed _ _ _)).
  rewrite (bind_run _ _ _ _ _ (removeToken_removed _ _ _)).
  rewrite (bind_run _ _ _ _ _ (removeToken_removed _ _ _)).
  by rewrite removeToken_removed.
Qed.

Lemma setTokens_unfold newSettings oldSettings :
  setTokens E newSettings oldSettings =
  (forEach newSettings (create_four E) ;;;
   if negb (Nat.eqb (length oldSettings) 0)
   then forEach (difference newSettings oldSettings) (remove_four E)
   else ret tt).
Proof. reflexivity. Qed.

Lemma token_ids_flat_map names :
  token_ids E names = flat_map (fun d => map cr_id (four_creations E d)) names.
Proof.
  unfold token_ids, token_specs. induction names as [|d names IH]; [done|].
  cbn [flat_map]. by rewrite map_app, IH.
Qed.

(** [setTokens] as the state it leaves when it returns: the calls for the
    new names started, then the tokens of the dropped names removed. *)
Lemma setTokens_state newSettings oldSettings st :
  setTokens E newSettings oldSettings st =
  (Return tt,
   removed_all (token_ids E (difference newSettings oldSettings))
     (started_all (token_specs E newSettings) st)).
Proof.
  rewrite setTokens_unfold.
  rewrite (bind_run _ _ _ _ _
             (forEach_foldl (create_four E) (fun t => started_all (four_creations E t))
                newSettings st (create_four_run))).
  unfold started_all at 1. rewrite foldl_flat_map. fold (token_specs E newSettings).
  fold (started_all (token_specs E newSettings) st).
  destruct oldSettings as [|o oldSettings]; [reflexivity|].
  cbn [length Nat.eqb negb].
  rewrite (forEach_foldl (remove_four E)
             (fun d => removed_all (map cr_id (four_creations E d))) _ _ remove_four_run).
  unfold removed_all at 1. rewrite foldl_flat_map, <- token_ids_flat_map.
  reflexivity.
Qed.

End NotAwaited.

Lemma createToken_resumed_run c st :
  createToken_resumed c st = (Return tt, resumed c st).
Proof.
  unfold createToken_resumed, resumed, bind, modify, token_setValue; cbn.
  rewrite lookup_insert_eq, insert_insert_eq. reflexivity.
Qed.

Lemma answered_resumed_all order st :
  answered order st = resumed_all order (with_pending [] st).
Proof.
  unfold answered, exec.
  by rewrite (forEach_foldl createToken_resumed resumed _ _ createToken_resumed_run).
Qed.

(** ** The states that started calls, removals and answers leave *)

Lemma same_settings_refl st : same_settings st st.
Proof. by repeat split. Qed.

Lemma same_settings_trans st1 st2 st3 :
  same_settings st1 st2 -> same_settings st2 st3 -> same_settings st1 st3.
Proof. unfold same_settings. intros (?&?&?&?) (?&?&?&?). repeat split; congruence. Qed.

Lemma held_false st id : held st id = false <-> TOKENS st !! id = None.
Proof. unfold held. by destruct (TOKENS st !! id). Qed.

(** *** Started calls *)

Lemma started_lookup_ne c st id :
  id <> cr_id c -> TOKENS (started c st) !! id = TOKENS st !! id.
Proof.
  intros Hne. unfold started. destruct (TOKENS st !! cr_id c); cbn; [|done].
  by rewrite lookup_insert_ne.
Qed.

Lemma started_lookup_eq c st :
  TOKENS (started c st) !! cr_id c = set_value (cr_value c) <$> TOKENS st !! cr_id c.
Proof.
  unfold started. destruct (TOKENS st !! cr_id c) as [h|] eqn:Hid; cbn.
  - by rewrite lookup_insert_eq.
  - by rewrite Hid.
Qed.

Lemma started_held c st id : held (started c st) id = held st id.
Proof.
  unfold held. destruct (decide (id = cr_id c)) as [->|Hne].
  - rewrite started_lookup_eq. by destruct (TOKENS st !! cr_id c).
  - by rewrite started_lookup_ne.
Qed.

Lemma started_same_settings c st : same_settings st (started c st).
Proof. unfold started. by destruct (TOKENS st !! cr_id c). Qed.

Lemma started_calls c st :
  host_calls (started c st) = host_calls st ++ [start_call st c].
Proof.
  unfold started, start_call, held. by destruct (TOKENS st !! cr_id c).
Qed.

Lemma started_pending c st :
  pending (started c st) =
  pending st ++ (if held st (cr_id c) then [] else [c]).
Proof.
  unfold started, held. destruct (TOKENS st !! cr_id c); cbn; [|done].
  by rewrite app_nil_r.
Qed.

Lemma started_all_cons c cs st :
  started_all (c :: cs) st = started_all cs (started c st).
Proof. reflexivity. Qed.

Lemma started_all_held cs st id : held (started_all cs st) id = held st id.
Proof.
  revert st. induction cs as [|c cs IH]; intros st; [done|].
  by rewrite started_all_cons, IH, started_held.
Qed.

Lemma started_all_same_settings cs st : same_settings st (started_all cs st).
Proof.
  revert st. induction cs as [|c cs IH]; intros st; [apply same_settings_refl|].
  rewrite started_all_cons.
  eapply same_settings_trans; [apply started_same_settings|apply IH].
Qed.

Lemma started_all_lookup_notin cs st id :
  id ∉ map cr_id cs -> TOKENS (started_all cs st) !! id = TOKENS st !! id.
Proof.
  revert st. induction cs as [|c cs IH]; intros st Hnotin; [done|].
  cbn [map] in Hnotin. apply not_elem_of_cons in Hnotin as [Hne Hnotin].
  by rewrite started_all_cons, IH, started_lookup_ne.
Qed.

Lemma started_all_lookup_in cs st id :
  Forall (fun c => cr_value c = VNull) cs -> id ∈ map cr_id cs ->
  TOKENS (started_all cs st) !! id = set_value VNull <$> TOKENS st !! id.
Proof.
  intros Hnull. revert st.
  induction Hnull as [|c cs Hc Hnull IH]; intros st Hin.
  { by apply elem_of_nil in Hin. }
  rewrite started_all_cons.
  destruct (decide (id ∈ map cr_id cs)) as [Hrest|Hrest].
  - rewrite IH by done. destruct (decide (id = cr_id c)) as [->|Hne].
    + rewrite started_lookup_eq, Hc. by destruct (TOKENS st !! cr_id c).
    + by rewrite started_lookup_ne.
  - rewrite started_all_lookup_notin by done.
    cbn [map] in Hin. apply elem_of_cons in Hin as [->|Hin]; [|done].
    by rewrite started_lookup_eq, Hc.
Qed.

Lemma started_all_calls cs st :
  host_calls (started_all cs st) = host_calls st ++ map (start_call st) cs.
Proof.
  revert st. induction cs as [|c cs IH]; intros st; cbn [map].
  { by rewrite app_nil_r. }
  rewrite started_all_cons, IH, started_calls, <- app_assoc. cbn [app].
  do 2 f_equal. apply map_ext. intros c'. unfold start_call.
  by rewrite started_held.
Qed.

Lemma started_all_pending cs st :
  pending (started_all cs st) =
  pending st ++ filter (fun c => held st (cr_id c) = false) cs.
Proof.
  revert st. induction cs as [|c cs IH]; intros st.
  { by rewrite filter_nil, app_nil_r. }
  rewrite started_all_cons, IH, started_pending, <- app_assoc.
  f_equal. rewrite filter_cons.
  assert (filter (fun c0 => held (started c st) (cr_id c0) = false) cs =
          filter (fun c0 => held st (cr_id c0) = false) cs) as ->.
  { apply list_filter_iff. intros c'. by rewrite started_held. }
  destruct (held st (cr_id c)) eqn:Hh; by destruct (decide _).
Qed.

(** *** Removals *)

Lemma removed_lookup_ne id' st id :
  id <> id' -> TOKENS (removed id' st) !! id = TOKENS st !! id.
Proof.
  intros Hne. unfold removed. destruct (TOKENS st !! id'); cbn; [|done].
  by rewrite lookup_insert_ne.
Qed.

Lemma removed_lookup_eq id st :
  TOKENS (removed id st) !! id = set_unregistered <$> TOKENS st !! id.
Proof.
  unfold removed. destruct (TOKENS st !! id) as [h|] eqn:Hid; cbn.
  - by rewrite lookup_insert_eq.
  - by rewrite Hid.
Qed.

Lemma removed_held id' st id : held (removed id' st) id = held st id.
Proof.
  unfold held. destruct (decide (id = id')) as [->|Hne].
  - rewrite removed_lookup_eq. by destruct (TOKENS st !! id').
  - by rewrite removed_lookup_ne.
Qed.

Lemma removed_same_settings id st : same_settings st (removed id st).
Proof. unfold removed. by destruct (TOKENS st !! id). Qed.

Lemma removed_pending id st : pending (removed id st) = pending st.
Proof. unfold removed. by destruct (TOKENS st !! id). Qed.

Lemma removed_calls id st :
  host_calls (removed id st) =
  host_calls st ++ (if held st id then [HostUnregister id] else []).
Proof.
  unfold removed, held. destruct (TOKENS st !! id); cbn; [done|].
  by rewrite app_nil_r.
Qed.

Lemma removed_all_cons id ids st :
  removed_all (id :: ids) st = removed_all ids (removed id st).
Proof. reflexivity. Qed.

Lemma removed_all_same_settings ids st : same_settings st (removed_all ids st).
Proof.
  revert st. induction ids as [|i ids IH]; intros st; [apply same_settings_refl|].
  rewrite removed_all_cons.
  eapply same_settings_trans; [apply removed_same_settings|apply IH].
Qed.

Lemma removed_all_pending ids st : pending (removed_all ids st) = pending st.
Proof.
  revert st. induction ids as [|i ids IH]; intros st; [done|].
  by rewrite removed_all_cons, IH, removed_pending.
Qed.

Lemma removed_all_lookup_notin ids st id :
  id ∉ ids -> TOKENS (removed_all ids st) !! id = TOKENS st !! id.
Proof.
  revert st. induction ids as [|i ids IH]; intros st Hnotin; [done|].
  apply not_elem_of_cons in Hnotin as [Hne Hnotin].
  by rewrite removed_all_cons, IH, removed_lookup_ne.
Qed.

Lemma removed_all_lookup_in ids st id :
  id ∈ ids ->
  TOKENS (removed_all ids st) !! id = set_unregistered <$> TOKENS st !! id.
Proof.
  revert st. induction ids as [|i ids IH]; intros st Hin.
  { by apply elem_of_nil in Hin. }
  rewrite removed_all_cons.
  destruct (decide (id ∈ ids)) as [Hrest|Hrest].
  - rewrite IH by done. destruct (decide (id = i)) as [->|Hne].
    + rewrite removed_lookup_eq. by destruct (TOKENS st !! i).
    + by rewrite removed_lookup_ne.
  - rewrite removed_all_lookup_notin by done.
    apply elem_of_cons in Hin as [->|Hin]; [|done].
    by rewrite removed_lookup_eq.
Qed.

Lemma removed_all_unregistrations ids st :
  host_calls (removed_all ids st) = host_calls st ++ unregistrations st ids.
Proof.
  unfold unregistrations. revert st. induction ids as [|i ids IH]; intros st.
  { cbn. by rewrite app_nil_r. }
  rewrite removed_all_cons, IH, removed_calls, <- app_assoc. f_equal.
  rewrite (filter_ext (held (removed i st)) (held st))
    by (intros id; apply removed_held).
  cbn [List.filter]. by destruct (held st i).
Qed.

Lemma unregistrations_ext st st' ids :
  (forall id, id ∈ ids -> held st' id = held st id) ->
  unregistrations st' ids = unregistrations st ids.
Proof.
  intros Hsame. unfold unregistrations. f_equal.
  apply filter_ext_in. intros id Hin. by apply Hsame, list_elem_of_In.
Qed.

(** *** Answers *)

Lemma resumed_all_cons c cs st :
  resumed_all (c :: cs) st = resumed_all cs (resumed c st).
Proof. reflexivity. Qed.

Lemma resumed_all_same_settings cs st : same_settings st (resumed_all cs st).
Proof.
  revert st. induction cs as [|c cs IH]; intros st; [apply same_settings_refl|].
  rewrite resumed_all_cons.
  eapply same_settings_trans; [|apply IH]. by repeat split.
Qed.

Lemma resumed_all_pending cs st : pending (resumed_all cs st) = pending st.
Proof.
  revert st. induction cs as [|c cs IH]; intros st; [done|].
  by rewrite resumed_all_cons, IH.
Qed.

Lemma resumed_all_calls cs st :
  host_calls (resumed_all cs st) =
  host_calls st ++ map (fun c => HostSetValue (cr_id c) (cr_value c)) cs.
Proof.
  revert st. induction cs as [|c cs IH]; intros st; cbn [map].
  { by rewrite app_nil_r. }
  rewrite resumed_all_cons, IH. cbn. by rewrite <- app_assoc.
Qed.

Lemma resumed_all_lookup_notin cs st id :
  id ∉ map cr_id cs -> TOKENS (resumed_all cs st) !! id = TOKENS st !! id.
Proof.
  revert st. induction cs as [|c cs IH]; intros st Hnotin; [done|].
  cbn [map] in Hnotin. apply not_elem_of_cons in Hnotin as [Hne Hnotin].
  rewrite resumed_all_cons, IH by done. cbn. by rewrite lookup_insert_ne.
Qed.

(** Each answer stores the handle of its registration; of two
    registrations of one identifier, the one answered last stays. *)
Lemma resumed_all_lookup cs st id :
  ((id ∉ map cr_id cs) /\ TOKENS (resumed_all cs st) !! id = TOKENS st !! id) \/
  (exists c, c ∈ cs /\ cr_id c = id /\
             TOKENS (resumed_all cs st) !! id = Some (created_handle c)).
Proof.
  revert st. induction cs as [|c cs IH]; intros st.
  { left. split; [apply not_elem_of_nil|done]. }
  rewrite resumed_all_cons.
  destruct (IH (resumed c st)) as [[Hnotin Hlook]|(c' & Hin & Hid & Hlook)].
  - destruct (decide (id = cr_id c)) as [->|Hne].
    + right. exists c. split; [apply elem_of_cons; by left|]. split; [done|].
      rewrite Hlook. cbn. by rewrite lookup_insert_eq.
    + left. split.
      * cbn [map]. by apply not_elem_of_cons.
      * rewrite Hlook. cbn. by rewrite lookup_insert_ne.
  - right. exists c'. split; [apply elem_of_cons; by right|done].
Qed.

Lemma resumed_all_lookup_NoDup cs st c :
  NoDup (map cr_id cs) -> c ∈ cs ->
  TOKENS (resumed_all cs st) !! cr_id c = Some (created_handle c).
Proof.
  revert st. induction cs as [|c0 cs IH]; intros st Hnd Hin.
  { by apply elem_of_nil in Hin. }
  cbn [map] in Hnd. apply NoDup_cons in Hnd as [Hnotin Hnd].
  rewrite resumed_all_cons. apply elem_of_cons in Hin as [->|Hin].
  - rewrite resumed_all_lookup_notin by done. cbn. by rewrite lookup_insert_eq.
  - by apply IH.
Qed.

(** ** setTokens *)

Lemma filter_none {A} (P : A -> Prop) `{forall x, Decision (P x)} (l : list A) :
  (forall x, x ∈ l -> ~ P x) -> filter P l = [].
Proof.
  induction l as [|x l IH]; intros Hnone; [done|].
  rewrite filter_cons_False by (apply Hnone, elem_of_cons; by left).
  apply IH. intros y Hy. apply Hnone, elem_of_cons. by right.
Qed.

Section TokenSpecs.

Variable E : Env.

Lemma four_creations_ids name :
  map cr_id (four_creations E name) =
  map (fun kind => token_id E name (Some kind)) kinds.
Proof. reflexivity. Qed.

Lemma four_creations_null name :
  Forall (fun c => cr_value c = VNull) (four_creations E name).
Proof. unfold four_creations. by repeat constructor. Qed.

Lemma elem_of_token_specs names c :
  c ∈ token_specs E names <->
  exists name, name ∈ names /\ c ∈ four_creations E name.
Proof.
  unfold token_specs. rewrite list_elem_of_In, in_flat_map.
  split; intros (name & Hname & Hc); exists name;
    by rewrite ?list_elem_of_In in *.
Qed.

Lemma token_specs_null names :
  Forall (fun c => cr_value c = VNull) (token_specs E names).
Proof.
  apply Forall_forall. intros c (name & _ & Hc)%elem_of_token_specs.
  pose proof (four_creations_null name) as Hnull.
  rewrite Forall_forall in Hnull. by apply Hnull.
Qed.

Lemma token_specs_app l1 l2 :
  token_specs E (l1 ++ l2) = token_specs E l1 ++ token_specs E l2.
Proof. unfold token_specs. apply flat_map_app. Qed.

Lemma token_ids_app l1 l2 :
  token_ids E (l1 ++ l2) = token_ids E l1 ++ token_ids E l2.
Proof. unfold token_ids. by rewrite token_specs_app, map_app. Qed.

Lemma elem_of_token_ids names id :
  id ∈ token_ids E names <-> token_of E names id.
Proof.
  unfold token_ids, token_of. split.
  - intros (c & -> & Hc)%list_elem_of_fmap.
    apply elem_of_token_specs in Hc as (name & Hname & Hc).
    assert (cr_id c ∈ map cr_id (four_creations E name)) as Hid
      by (by apply list_elem_of_fmap_2).
    rewrite four_creations_ids in Hid.
    apply list_elem_of_fmap in Hid as (kind & -> & Hkind). by exists name, kind.
  - intros (name & kind & Hname & Hkind & ->).
    assert (token_id E name (Some kind) ∈ map cr_id (four_creations E name)) as Hid.
    { rewrite four_creations_ids. apply list_elem_of_fmap. by exists kind. }
    apply list_elem_of_fmap in Hid as (c & -> & Hc).
    apply list_elem_of_fmap_2, elem_of_token_specs. by exists name.
Qed.

Lemma elem_of_difference newSettings oldSettings x :
  x ∈ difference newSettings oldSettings <-> x ∈ oldSettings /\ x ∉ newSettings.
Proof.
  unfold difference. rewrite list_elem_of_In, filter_In, <- list_elem_of_In.
  rewrite negb_true_iff. unfold includes.
  split; intros [Hold Hnew]; (split; [done|]).
  - intros Hin. assert (existsb (String.eqb x) newSettings = true) as Hex; [|congruence].
    apply existsb_exists. exists x. split; [by apply list_elem_of_In|].
    by apply String.eqb_eq.
  - apply not_true_is_false. intros (y & Hy & Heq)%existsb_exists.
    apply String.eqb_eq in Heq. subst y. by apply Hnew, list_elem_of_In.
Qed.

End TokenSpecs.

(** *** Once the host has answered *)

Section Answered.

Variable E : Env.
Variables (newNames oldNames : list string).
Variable st : App.
Variable order : list Creation.

Local Abbreviation dropped := (difference newNames oldNames).
Local Abbreviation st1 := (exec (setTokens E newNames oldNames) st).
Local Abbreviation st2 := (answered order st1).

Hypothesis idle : pending st = [].
Hypothesis distinct : NoDup (token_ids E (newNames ++ dropped)).
Hypothesis answers : order ≡ₚ pending st1.

Lemma st1_state :
  st1 = removed_all (token_ids E dropped) (started_all (token_specs E newNames) st).
Proof. unfold exec. by rewrite setTokens_state. Qed.

Lemma st1_pending :
  pending st1 =
  filter (fun c => held st (cr_id c) = false) (token_specs E newNames).
Proof.
  rewrite st1_state, removed_all_pending, started_all_pending, idle. done.
Qed.

Lemma distinct_parts :
  NoDup (token_ids E newNames) /\
  (forall id, id ∈ token_ids E newNames -> id ∉ token_ids E dropped) /\
  NoDup (token_ids E dropped).
Proof. pose proof distinct as H. by rewrite token_ids_app, NoDup_app in H. Qed.

Lemma elem_of_order c :
  c ∈ order <-> held st (cr_id c) = false /\ c ∈ token_specs E newNames.
Proof. by rewrite answers, st1_pending, list_elem_of_filter. Qed.

Lemma order_NoDup : NoDup (map cr_id order).
Proof.
  destruct distinct_parts as (Hnew & _ & _).
  rewrite (Permutation_map cr_id answers), st1_pending.
  eapply sublist_NoDup; [exact Hnew|].
  unfold token_ids. apply (fmap_sublist cr_id), sublist_filter.
Qed.

Lemma st2_pending : pending st2 = [].
Proof. by rewrite answered_resumed_all, resumed_all_pending. Qed.

(** A token of a new name: the handle there was, with value [null], or
    else the handle of its registration. *)
Lemma st2_lookup_new c :
  c ∈ token_specs E newNames ->
  TOKENS st2 !! cr_id c =
  Some (match TOKENS st !! cr_id c with
        | Some h => set_value VNull h
        | None => created_handle c
        end).
Proof.
  intros Hc. destruct distinct_parts as (_ & Hapart & _).
  assert (Hid : cr_id c ∈ token_ids E newNames) by (by apply list_elem_of_fmap_2).
  rewrite answered_resumed_all.
  destruct (TOKENS st !! cr_id c) as [h|] eqn:Hlook.
  - rewrite resumed_all_lookup_notin.
    + cbn. rewrite st1_state, removed_all_lookup_notin by (by apply Hapart).
      rewrite started_all_lookup_in, Hlook; [done|apply token_specs_null|done].
    + intros (c' & Hid' & [Hheld _]%elem_of_order)%list_elem_of_fmap.
      apply held_false in Hheld. congruence.
  - apply resumed_all_lookup_NoDup; [apply order_NoDup|].
    apply elem_of_order. split; [by apply held_false|done].
Qed.

Lemma order_ids_new id : id ∈ map cr_id order -> id ∈ token_ids E newNames.
Proof.
  intros (c & -> & [_ Hc]%elem_of_order)%list_elem_of_fmap.
  by apply list_elem_of_fmap_2.
Qed.

(** A token of a dropped name: unregistered, if there was a handle. *)
Lemma st2_lookup_dropped id :
  id ∈ token_ids E dropped ->
  TOKENS st2 !! id = set_unregistered <$> TOKENS st !! id.
Proof.
  intros Hid. destruct distinct_parts as (_ & Hapart & _).
  assert (Hnew : id ∉ token_ids E newNames) by (intros H; by apply (Hapart id)).
  rewrite answered_resumed_all, resumed_all_lookup_notin.
  - cbn. rewrite st1_state, removed_all_lookup_in by done.
    by rewrite started_all_lookup_notin.
  - intros H. by apply Hnew, order_ids_new.
Qed.


Lemma st1_calls :
  host_calls st1 =
  host_calls st ++ map (start_call st) (token_specs E newNames) ++
  unregistrations st (token_ids E dropped).
Proof.
  rewrite st1_state, removed_all_unregistrations, started_all_calls, <- app_assoc.
  do 2 f_equal. apply unregistrations_ext. intros id _. apply started_all_held.
Qed.

Lemma st2_calls :
  host_calls st2 =
  host_calls st ++ map (start_call st) (token_specs E newNames) ++
  unregistrations st (token_ids E dropped) ++ value_sets order.
Proof.
  rewrite answered_resumed_all, resumed_all_calls. cbn [host_calls with_pending].
  rewrite st1_calls. by rewrite <- !app_assoc.
Qed.

(** The second call of [setTokens], made in [st2]. *)
Lemma again_state :
  exec (setTokens E newNames oldNames) st2 =
  removed_all (token_ids E dropped) (started_all (token_specs E newNames) st2).
Proof. unfold exec. by rewrite setTokens_state. Qed.

Lemma st2_held_new c : c ∈ token_specs E newNames -> held st2 (cr_id c) = true.
Proof. intros Hc. unfold held. by rewrite (st2_lookup_new c Hc). Qed.

Lemma again_registry :
  TOKENS (exec (setTokens E newNames oldNames) st2) = TOKENS st2.
Proof.
  destruct distinct_parts as (_ & Hapart & _).
  apply map_eq. intros id. rewrite again_state.
  destruct (decide (id ∈ token_ids E dropped)) as [Hd|Hd].
  - assert (Hnew : id ∉ token_ids E newNames) by (intros H; by apply (Hapart id)).
    rewrite removed_all_lookup_in, started_all_lookup_notin by done.
    rewrite (st2_lookup_dropped id Hd). by destruct (TOKENS st !! id).
  - rewrite removed_all_lookup_notin by done.
    destruct (decide (id ∈ token_ids E newNames)) as [Hn|Hn].
    + rewrite started_all_lookup_in; [|apply token_specs_null|done].
      apply list_elem_of_fmap in Hn as (c & -> & Hc).
      rewrite (st2_lookup_new c Hc).
      destruct (TOKENS st !! cr_id c) as [h|]; cbn; [done|].
      pose proof (token_specs_null E newNames) as Hnull.
      rewrite Forall_forall in Hnull. specialize (Hnull c Hc).
      unfold set_value, created_handle. cbn. by rewrite Hnull.
    + by rewrite started_all_lookup_notin.
Qed.

Lemma again_pending : pending (exec (setTokens E newNames oldNames) st2) = [].
Proof.
  rewrite again_state, removed_all_pending, started_all_pending, st2_pending.
  cbn. apply filter_none. intros c Hc. by rewrite (st2_held_new c Hc).
Qed.

Lemma again_calls_exact :
  host_calls (exec (setTokens E newNames oldNames) st2) =
  host_calls st2 ++
  map (fun c => HostSetValue (cr_id c) VNull) (token_specs E newNames) ++
  unregistrations st (token_ids E dropped).
Proof.
  rewrite again_state, removed_all_unregistrations, started_all_calls, <- app_assoc.
  f_equal. f_equal.
  - apply map_ext_in. intros c Hc%list_elem_of_In. unfold start_call.
    rewrite (st2_held_new c Hc).
    pose proof (token_specs_null E newNames) as Hnull.
    rewrite Forall_forall in Hnull. by rewrite (Hnull c Hc).
  - apply unregistrations_ext. intros id Hid.
    rewrite started_all_held. unfold held.
    rewrite (st2_lookup_dropped id Hid). by destruct (TOKENS st !! id).
Qed.

End Answered.

Lemma setTokens_result (E : Env) newSettings oldSettings st :
  result (setTokens E newSettings oldSettings) st = Return tt.
Proof. unfold result. by rewrite setTokens_state. Qed.




(** Why the amended C7 asks for distinct identifiers.  When they collide,
    the four tokens of a name share one handle, which the host is asked to
    register four times; and dropping a name unregisters the token of a
    tracked name that shares its identifier. *)
Example setTokens_colliding_identifiers :
  let s1 := settle (exec (setTokens merging_env ["a"] []) initialised_app) in
  let s2 := settle (exec (setTokens merging_env ["b"] ["a"]) s1) in
  map_to_list (TOKENS s1) =
    [("token", {| tk_type := "number"; tk_title := "a Calculation";
                  tk_value := VNull; tk_registered := true |})] /\
  host_calls s1 =
    host_calls initialised_app ++
    [HostCreateToken "token" "string" "a Duration";
     HostCreateToken "token" "string" "a Currency";
     HostCreateToken "token" "number" "a Comparison";
     HostCreateToken "token" "number" "a Calculation";
     HostSetValue "token" VNull; HostSetValue "token" VNull;
     HostSetValue "token" VNull; HostSetValue "token" VNull] /\
  map_to_list (TOKENS s2) =
    [("token", {| tk_type := "number"; tk_title := "a Calculation";
                  tk_value := VNull; tk_registered := false |})].
Proof. vm_compute. by repeat split. Qed.

(** C8, as stated, fails.  When [b] is dropped, the second identical call
    asks the host again to unregister the four tokens of [b].  And a second
    call that comes before the host has answered the registrations of the
    first asks for each of them again. *)
Lemma setTokens_second_call_unregisters_again :
  let st1 := exec (setTokens sample_env ["a"] ["a"; "b"]) app_tracking_a_b in
  let st2 := exec (setTokens sample_env ["a"] ["a"; "b"]) st1 in
  let s1 := exec (setTokens sample_env ["c"] []) initialised_app in
  let s2 := exec (setTokens sample_env ["c"] []) s1 in
  host_calls st2 =
    host_calls st1 ++
    [HostSetValue "a Duration" VNull; HostSetValue "a Currency" VNull;
     HostSetValue "a Comparison" VNull; HostSetValue "a Calculation" VNull;
     HostUnregister "b Duration"; HostUnregister "b Currency";
     HostUnregister "b Comparison"; HostUnregister "b Calculation"] /\
  host_calls s2 =
    host_calls s1 ++
    [HostCreateToken "c Duration" "string" "c Duration";
     HostCreateToken "c Currency" "string" "c Currency";
     HostCreateToken "c Comparison" "number" "c Comparison";
     HostCreateToken "c Calculation" "number" "c Calculation"].
Proof. vm_compute. by split. Qed.

(** C8, amended.  Suppose no registration was pending before the first
    call, the identifiers of the tokens of the names in [newNames] and of
    the dropped names are pairwise distinct, and the host has answered the
    registrations of the first call before the second call is made.  Then
    the second call of [setTokens] with the same two lists returns, leaves
    the registry as it found it and nothing pending, and asks the host for
    no registration: it sets the value of every token of [newNames] to
    [null] and repeats the unregistration of every token of a dropped name
    that the registry holds. *)
Theorem setTokens_twice_registers_nothing_new
    (E : Env) (newNames oldNames : list string) (st : App) (order : list Creation) :
  let dropped := difference newNames oldNames in
  let st1 := exec (setTokens E newNames oldNames) st in
  let st2 := answered order st1 in
  let st3 := exec (setTokens E newNames oldNames) st2 in
  pending st = [] ->
  NoDup (token_ids E (newNames ++ dropped)) ->
  order ≡ₚ pending st1 ->
  result (setTokens E newNames oldNames) st2 = Return tt /\
  TOKENS st3 = TOKENS st2 /\
  pending st3 = [] /\
  host_calls st3 =
    host_calls st2 ++
    map (fun c => HostSetValue (cr_id c) VNull) (token_specs E newNames) ++
    unregistrations st (token_ids E dropped).
Proof.
  intros dropped st1 st2 st3 Hidle Hdistinct Horder.
  split; [apply setTokens_result|].
  split; [by apply (again_registry E newNames oldNames st order)|].
  split; [by apply (again_pending E newNames oldNames st order)|].
  by apply (again_calls_exact E newNames oldNames st order).
Qed.

Lemma setTokens_twice_registers_nothing_new_witness :
  let st := app_tracking_a_b in
  let order := rev (four_creations sample_env "c") in
  let st1 := exec (setTokens sample_env ["a"; "c"] ["a"; "b"]) st in
  let st2 := answered order st1 in
  let st3 := exec (setTokens sample_env ["a"; "c"] ["a"; "b"]) st2 in
  (pending st = [] /\
   NoDup (token_ids sample_env (["a"; "c"] ++ difference ["a"; "c"] ["a"; "b"])) /\
   order ≡ₚ pending st1) /\
  (result (setTokens sample_env ["a"; "c"] ["a"; "b"]) st2 = Return tt /\
   TOKENS st3 = TOKENS st2 /\
   pending st3 = [] /\
   host_calls st3 =
     host_calls st2 ++
     map (fun c => HostSetValue (cr_id c) VNull) (token_specs sample_env ["a"; "c"]) ++
     unregistrations st (token_ids sample_env (difference ["a"; "c"] ["a"; "b"]))) /\
  host_calls st3 =
    host_calls st2 ++
    [HostSetValue "a Duration" VNull; HostSetValue "a Currency" VNull;
     HostSetValue "a Comparison" VNull; HostSetValue "a Calculation" VNull;
     HostSetValue "c Duration" VNull; HostSetValue "c Currency" VNull;
     HostSetValue "c Comparison" VNull; HostSetValue "c Calculation" VNull;
     HostUnregister "b Duration"; HostUnregister "b Currency";
     HostUnregister "b Comparison"; HostUnregister "b Calculation"].
Proof.
  intros st order st1 st2 st3.
  assert (H1 : pending st = []) by reflexivity.
  assert (H2 : NoDup (token_ids sample_env
                        (["a"; "c"] ++ difference ["a"; "c"] ["a"; "b"]))).
  { apply (bool_decide_unpack _). vm_compute. exact I. }
  assert (H3 : order ≡ₚ pending st1).
  { symmetry. apply (Permutation_rev (four_creations sample_env "c")). }
  split; [by repeat split|]. split.
  - exact (setTokens_twice_registers_nothing_new
             sample_env ["a"; "c"] ["a"; "b"] st order H1 H2 H3).
  - vm_compute. reflexivity.
Defined.

(** ** updateSettings *)

Section UpdateSettings.

Variable E : Env.

Lemma setTokens_same_settings newSettings oldSettings st :
  exists st',
    setTokens E newSettings oldSettings st = (Return tt, st') /\ same_settings st st'.
Proof.
  rewrite setTokens_state. eexists. split; [done|].
  eapply same_settings_trans;
    [apply started_all_same_settings|apply removed_all_same_settings].
Qed.

(** [updateSettings(settings)] with the default [update = false]. *)
Lemma updateSettings_no_sync settings st :
  updateSettings E settings false st =
  (Return tt,
   if store_rejects st
   then with_error (HostError "settings.set rejected") (replaced settings st)
   else with_stored (Some settings) (replaced settings st)).
Proof.
  unfold updateSettings, try_catch, bind, gets, modify, host_settings_set, replaced.
  cbn. by destruct (store_rejects st).
Qed.

End UpdateSettings.

(** C9. [updateSettings(settings, update)] never throws.  It replaces the
    whole in-memory document by [settings] and asks the host to store it.
    When the host rejects the write, the error is appended to the error log,
    nothing else is done, and the call still returns normally.  When the
    write succeeds, the stored document is [settings], and the tokens are
    reconciled, by [setTokens] on the new and the old [VARIABLES], exactly
    when [update] is true; with [update] false the registry is untouched and
    the only host call is the write. *)
Theorem updateSettings_replaces_persists_and_syncs_on_flag
    (E : Env) (settings : Settings) (update : bool) (st : App) :
  let st' := exec (updateSettings E settings update) st in
  result (updateSettings E settings update) st = Return tt /\
  appSettings st' = Some settings /\
  if store_rejects st then
    st' = with_error (HostError "settings.set rejected") (replaced settings st)
  else
    stored st' = Some settings /\
    match update, appSettings st with
    | false, _ => st' = with_stored (Some settings) (replaced settings st)
    | true, Some old =>
        st' = exec (setTokens E (VARIABLES settings) (VARIABLES old))
                   (with_stored (Some settings) (replaced settings st))
    | true, None =>
        st' = with_error
                (TypeError "Cannot read properties of undefined (reading 'VARIABLES')")
                (with_stored (Some settings) (replaced settings st))
    end.
Proof.
  intros st'. subst st'. unfold exec, result.
  destruct update.
  - unfold updateSettings, try_catch, bind, gets, modify, host_settings_set. cbn.
    fold (replaced settings st).
    destruct (store_rejects st) eqn:Hrej; cbn; [by repeat split|].
    destruct (appSettings st) as [old|] eqn:Hold; cbn; [|by repeat split].
    destruct (setTokens_same_settings E (VARIABLES settings) (VARIABLES old)
                (with_stored (Some settings) (replaced settings st)))
      as (s' & Hrun & Happ & Hsto & _ & _).
    unfold exec. rewrite Hrun. cbn. by repeat split.
  - rewrite updateSettings_no_sync. cbn.
    destruct (store_rejects st); by repeat split.
Qed.


(** ** action_START and action_END *)

Example initialised_app_settings :
  appSettings initialised_app = Some default_settings /\
  stored initialised_app = Some default_settings /\
  TOKENS initialised_app = ∅ /\
  host_calls initialised_app = [HostSettingsSet default_settings].
Proof. vm_compute. repeat split. Qed.

Section Timers.

Variable E : Env.

Lemma action_START_run token o now st s :
  appSettings st = Some s ->
  action_START E token o now st =
  updateSettings E
    {| VARIABLES := VARIABLES s;
       COMPARISONS :=
         List.filter (fun setting => negb (strict_eq_string (c_name setting) token))
                     (COMPARISONS s) ++ [started_entry token o now];
       TOTALS := TOTALS s |} false st.
Proof.
  intros Hs. unfold action_START, read_appSettings, bind, gets. by rewrite Hs.
Qed.

(** The filter of [action_START] keeps every entry without a [name]. *)
Lemma filter_name_keeps_unnamed token (l : list Comparison) :
  Forall (fun e => c_name e = VUndefined) l ->
  List.filter (fun setting => negb (strict_eq_string (c_name setting) token)) l = l.
Proof.
  induction 1 as [|e l He _ IH]; [done|]. cbn. by rewrite He, IH.
Qed.

(** The lookup of [action_END] finds no entry without a [name]. *)
Lemma find_name_misses_unnamed token (l : list Comparison) :
  Forall (fun e => c_name e = VUndefined) l ->
  List.find (fun x => strict_eq_string (c_name x) token) l = None.
Proof.
  induction 1 as [|e l He _ IH]; [done|]. cbn. by rewrite He.
Qed.

(** When the lookup finds nothing, [action_END] fails on reading [date] of
    [undefined], before its own check, and leaves the state as it was. *)
Lemma action_END_not_found token value now st s :
  appSettings st = Some s ->
  List.find (fun x => strict_eq_string (c_name x) token) (COMPARISONS s) = None ->
  action_END E token value now st =
  (Throw (TypeError "Cannot read properties of undefined (reading 'date')"), st).
Proof.
  intros Hs Hfind. unfold action_END, read_appSettings, bind, gets.
  rewrite Hs. cbv beta iota zeta. unfold ret. by rewrite Hfind.
Qed.

(** When the lookup finds [ec], [action_END] writes the document and then
    the tokens. *)
Lemma action_END_found token value now st s ec :
  appSettings st = Some s ->
  List.find (fun x => strict_eq_string (c_name x) token) (COMPARISONS s) = Some ec ->
  let total := ended_total E token ec value now in
  action_END E token value now st =
  (updateSettings E
     {| VARIABLES := VARIABLES s; COMPARISONS := COMPARISONS s;
        TOTALS :=
          List.filter (fun total => negb (strict_eq_string (t_name total) token))
                      (TOTALS s) ++ [total] |} false ;;;
   createToken E token
     {| o_src := Some "duration"; o_value := Some (t_duration total);
        o_type := None |} ;;;
   if truthy (t_comparison total) then
     createToken E token
       {| o_src := Some "comparison";
          o_value := Some (VNum (parseFloat E (t_comparison total)));
          o_type := Some "number" |}
   else ret tt) st.
Proof.
  intros Hs Hfind total. unfold action_END, read_appSettings.
  unfold bind at 1. unfold gets at 1. cbv beta iota. unfold bind at 1.
  rewrite Hs. unfold ret at 1. cbv beta iota zeta. rewrite Hfind.
  unfold bind at 1. unfold ret at 1. cbv beta iota. reflexivity.
Qed.

(** The [throw new Error(`No comparison found for ...`)] of [action_END] is
    never reached. *)
Lemma action_END_never_throws_its_Error token value now st msg :
  result (action_END E token value now) st <> Throw (Error msg).
Proof.
  unfold result.
  destruct (appSettings st) as [s|] eqn:Hs.
  - destruct (List.find (fun x => strict_eq_string (c_name x) token) (COMPARISONS s))
      as [ec|] eqn:Hfind.
    + rewrite (action_END_found _ _ _ _ _ _ Hs Hfind). cbv zeta.
      rewrite (bind_run _ _ _ _ _ (updateSettings_no_sync E _ st)).
      match goal with |- context [bind (createToken E ?n ?o) _ ?s0] =>
        destruct (createToken_run E n o s0) as (s1 & R1 & _) end.
      rewrite (bind_run _ _ _ _ _ R1).
      destruct (truthy _); [|discriminate].
      match goal with |- context [createToken E ?n ?o ?s0] =>
        destruct (createToken_run E n o s0) as (s2 & -> & _) end.
      discriminate.
    + by rewrite (action_END_not_found _ _ _ _ _ Hs Hfind).
  - unfold action_END, read_appSettings, bind, gets. rewrite Hs. discriminate.
Qed.

(** Once the app has written all entries itself, a START followed by an END
    of the same name throws, and the END changes nothing. *)
Lemma action_END_after_START_throws token o value now now' st s :
  appSettings st = Some s ->
  Forall (fun e => c_name e = VUndefined) (COMPARISONS s) ->
  let st1 := exec (action_START E token o now) st in
  action_END E token value now' st1 =
  (Throw (TypeError "Cannot read properties of undefined (reading 'date')"), st1).
Proof.
  intros Hs Hall st1.
  assert (exists s1, appSettings st1 = Some s1 /\
                     Forall (fun e => c_name e = VUndefined) (COMPARISONS s1))
    as (s1 & Hs1 & Hall1).
  { unfold st1, exec. rewrite (action_START_run _ _ _ _ _ Hs), updateSettings_no_sync.
    cbn [snd]. eexists. split.
    - by destruct (store_rejects st).
    - cbn. rewrite filter_name_keeps_unnamed by done.
      apply Forall_app. split; [done|]. by constructor. }
  apply (action_END_not_found _ _ _ _ _ Hs1).
  by apply find_name_misses_unnamed.
Qed.

End Timers.

(** C1. The invariant "at most one COMPARISONS entry per token name" does
    not hold: two STARTs of the same name leave two entries for it.  The
    filter of [action_START] compares the [name] property, but the entries
    are written with the property [token], so nothing is filtered out. *)
Theorem action_START_twice_leaves_two_entries :
  let st1 := exec (action_START sample_env "a" start_timer_5 1000) initialised_app in
  let st2 := exec (action_START sample_env "a" start_timer_5 2000) st1 in
  appSettings st2 =
    Some {| VARIABLES := [];
            COMPARISONS :=
              [{| c_name := VUndefined; c_token := "a"; c_date := VDate 1000;
                  c_comparison := VNum 5 |};
               {| c_name := VUndefined; c_token := "a"; c_date := VDate 2000;
                  c_comparison := VNum 5 |}];
            TOTALS := [] |} /\
  (exists s2, appSettings st2 = Some s2 /\ map c_token (COMPARISONS s2) = ["a"; "a"]).
Proof. vm_compute. split; [reflexivity|]. eexists. split; reflexivity. Qed.

(** C2. With no COMPARISONS entry for the name, [action_END] does fail and
    changes nothing, but what it throws is the TypeError of reading [date]
    of [undefined], not its own "No comparison found" error. *)
Theorem action_END_without_entry_throws_TypeError :
  action_END sample_env "a" VNull 1000 initialised_app =
    (Throw (TypeError "Cannot read properties of undefined (reading 'date')"),
     initialised_app) /\
  result (action_END sample_env "a" VNull 1000) initialised_app <>
    Throw (Error "No comparison found for a").
Proof.
  split.
  - apply (action_END_not_found sample_env "a" VNull 1000 initialised_app default_settings);
      reflexivity.
  - apply action_END_never_throws_its_Error.
Qed.

(** C3, as stated, fails.  Without [dateStart] in the options no timestamp
    is recorded; with it, an earlier entry of the same name is not
    replaced. *)
Lemma action_START_counterexample :
  let baseline_only := {| o_dateStart := None; o_comparison := Some (VNum 5) |} in
  let st' := exec (action_START sample_env "a" baseline_only 1000) initialised_app in
  let st1 := exec (action_START sample_env "a" start_timer_5 1000) initialised_app in
  let st2 := exec (action_START sample_env "a" start_timer_5 2000) st1 in
  (exists s', appSettings st' = Some s' /\
     COMPARISONS s' = [{| c_name := VUndefined; c_token := "a"; c_date := VNull;
                          c_comparison := VNum 5 |}] /\
     VNull <> VDate 1000) /\
  (exists s2, appSettings st2 = Some s2 /\
     map c_token (COMPARISONS s2) = ["a"; "a"] /\
     map c_date (COMPARISONS s2) = [VDate 1000; VDate 2000]).
Proof.
  vm_compute. split; eexists; (split; [reflexivity|]); split; try reflexivity.
  discriminate.
Qed.

(** C3, amended.  On an initialised app [action_START(name, options)]
    returns normally.  The new document has the same VARIABLES and TOTALS;
    its last COMPARISONS entry is for [name], with the baseline
    [options.comparison] ([null] when absent) and with the date read from the
    clock when [options.dateStart] is truthy, and otherwise [dateStart]
    itself ([null] when absent); and its entries of other names are those of
    the old document, in the same order.  The document replaces the one in
    memory and is sent to the host store, this being the only call to the
    host; it is the stored one unless the host rejects the write, in which
    case the rejection is logged and the store is left as it was.  The token
    registry and the pending registrations are untouched. *)
Theorem action_START_appends_entry (E : Env) token o now st s :
  appSettings st = Some s ->
  let st' := exec (action_START E token o now) st in
  let dateStart := default VNull (o_dateStart o) in
  result (action_START E token o now) st = Return tt /\
  exists s',
    appSettings st' = Some s' /\
    VARIABLES s' = VARIABLES s /\ TOTALS s' = TOTALS s /\
    last (COMPARISONS s') =
      Some {| c_name := VUndefined; c_token := token;
              c_date := if truthy dateStart then VDate now else dateStart;
              c_comparison := default VNull (o_comparison o) |} /\
    List.filter (of_other_name token) (COMPARISONS s') =
      List.filter (of_other_name token) (COMPARISONS s) /\
    host_calls st' = host_calls st ++ [HostSettingsSet s'] /\
    (if store_rejects st
     then stored st' = stored st /\
          error_log st' = error_log st ++ [HostError "settings.set rejected"]
     else stored st' = Some s' /\ error_log st' = error_log st) /\
    TOKENS st' = TOKENS st /\
    pending st' = pending st.
Proof.
  intros Hs st' dateStart. subst st'. unfold exec, result.
  rewrite (action_START_run E _ _ _ _ _ Hs), updateSettings_no_sync. cbn [fst snd].
  split; [reflexivity|]. eexists. split.
  { destruct (store_rejects st); reflexivity. }
  cbn [VARIABLES TOTALS COMPARISONS]. rewrite last_snoc.
  split; [done|]. split; [done|]. split; [done|]. split.
  { rewrite List.filter_app. cbn [List.filter].
    unfold of_other_name at 2. cbn [c_token started_entry].
    rewrite String.eqb_refl. cbn [negb andb]. rewrite app_nil_r.
    induction (COMPARISONS s) as [|e l IH]; [done|]. cbn [List.filter].
    destruct (strict_eq_string (c_name e) token) eqn:Hname; cbn [negb].
    - unfold of_other_name at 2. rewrite Hname, andb_false_r. exact IH.
    - cbn [List.filter]. by rewrite IH. }
  destruct (store_rejects st); by repeat split.
Qed.

(** The amended C3 at a concrete START: timer and baseline 5 for ["a"] at
    clock 1000, while a timer for ["b"] is running. *)
Lemma action_START_appends_entry_witness :
  let st' := exec (action_START sample_env "a" start_timer_5 1000) app_timing_b in
  let entry_b := {| c_name := VUndefined; c_token := "b"; c_date := VDate 500;
                    c_comparison := VNum 5 |} in
  appSettings app_timing_b = Some doc_timing_b /\
  result (action_START sample_env "a" start_timer_5 1000) app_timing_b = Return tt /\
  exists s',
    appSettings st' = Some s' /\
    VARIABLES s' = [] /\ TOTALS s' = [] /\
    last (COMPARISONS s') =
      Some {| c_name := VUndefined; c_token := "a"; c_date := VDate 1000;
              c_comparison := VNum 5 |} /\
    List.filter (of_other_name "a") (COMPARISONS s') = [entry_b] /\
    host_calls st' = host_calls app_timing_b ++ [HostSettingsSet s'] /\
    (if store_rejects app_timing_b
     then stored st' = stored app_timing_b /\
          error_log st' =
            error_log app_timing_b ++ [HostError "settings.set rejected"]
     else stored st' = Some s' /\ error_log st' = error_log app_timing_b) /\
    TOKENS st' = TOKENS app_timing_b /\
    pending st' = pending app_timing_b.
Proof.
  split; [reflexivity|].
  exact (action_START_appends_entry sample_env "a" start_timer_5 1000
           app_timing_b doc_timing_b eq_refl).
Defined.

(** C4. A START followed at once by an END of the same name produces no
    TOTALS entry: the END throws and changes nothing, no token is touched.
    The END looks the entry up by [name], the START wrote it with [token]. *)
Theorem action_END_after_START_produces_no_total :
  let st1 := exec (action_START sample_env "a" start_timer_5 1000) initialised_app in
  let st2 := exec (action_END sample_env "a" (VNum 7) 1000) st1 in
  result (action_END sample_env "a" (VNum 7) 1000) st1 =
    Throw (TypeError "Cannot read properties of undefined (reading 'date')") /\
  st2 = st1 /\
  (exists s2, appSettings st2 = Some s2 /\ TOTALS s2 = []) /\
  TOKENS st2 = ∅.
Proof.
  intros st1 st2.
  assert (H : action_END sample_env "a" (VNum 7) 1000 st1 =
              (Throw (TypeError "Cannot read properties of undefined (reading 'date')"),
               st1)).
  { apply (action_END_after_START_throws sample_env "a" start_timer_5 (VNum 7)
             1000 1000 initialised_app default_settings); [reflexivity|constructor]. }
  unfold st2, exec, result. rewrite H. cbn [fst snd].
  split; [reflexivity|]. split; [reflexivity|]. split.
  - eexists. split; vm_compute; reflexivity.
  - vm_compute. reflexivity.
Qed.

(** ** A final value of zero *)

Lemma truthy_zero_difference (d : float) :
  PrimFloat.eqb d 0 = true -> truthy (VNum d) = false.
Proof. intros H. cbn. by rewrite H. Qed.

(** When the lookup of [action_END] does find an entry for the name (an
    entry that carries a [name], which no entry written by [action_START]
    does), an END with the final value [0] takes the value as not supplied:
    the call returns, the TOTALS entry it appends carries [comparison: null],
    and after the write of the document the only host calls are those of the
    duration token, so every other token, the comparison token among them,
    is left as it was.  And when the difference of final and baseline value
    is zero, [calculateComparison] returns the number [0], which is not the
    text ["0.00"]. *)
Lemma action_END_zero_is_no_value (E : Env) token now st s ec :
  appSettings st = Some s ->
  List.find (fun x => strict_eq_string (c_name x) token) (COMPARISONS s) = Some ec ->
  let st' := exec (action_END E token (VNum 0) now) st in
  let date := if truthy (c_date ec) then VDate now else VNull in
  let duration :=
    if truthy date then calculateDuration E (c_date ec) date else VNull in
  let id := token_id E token (Some "duration") in
  result (action_END E token (VNum 0) now) st = Return tt /\
  (exists s',
     appSettings st' = Some s' /\
     last (TOTALS s') =
       Some {| t_name := VUndefined; t_token := token; t_duration := duration;
               t_comparison := VNull |} /\
     host_calls st' =
       host_calls st ++
       HostSettingsSet s' ::
       match TOKENS st !! id with
       | None =>
           [HostCreateToken id "string" (token_title E token (Some "duration"));
            HostSetValue id duration]
       | Some _ => [HostSetValue id duration]
       end) /\
  (forall id', id' <> id -> TOKENS st' !! id' = TOKENS st !! id') /\
  (forall start end_,
     PrimFloat.eqb (parseFloat E end_ - parseFloat E start) 0 = true ->
     calculateComparison E start end_ = VNum 0 /\
     calculateComparison E start end_ <> VStr "0.00").
Proof.
  intros Hs Hfind st' date duration id. subst st'. unfold exec, result.
  rewrite (action_END_found E _ _ _ _ _ _ Hs Hfind). cbv zeta.
  rewrite (bind_run _ _ _ _ _ (updateSettings_no_sync E _ st)).
  match goal with |- context [bind (createToken E ?n ?o) _ ?s0] =>
    destruct (createToken_run E n o s0) as (s1 & R1 & Happ & _ & _ & _ & Hcase);
    set (s0' := s0) in * end.
  rewrite (bind_run _ _ _ _ _ R1).
  replace (truthy (t_comparison (ended_total E token ec (VNum 0) now))) with false
    by reflexivity.
  cbn [fst snd ret]. cbn [o_src o_value o_type default] in Hcase.
  change (t_duration (ended_total E token ec (VNum 0) now)) with duration in Hcase.
  fold id in Hcase.
  assert (HT0 : TOKENS s0' = TOKENS st) by (unfold s0'; by destruct (store_rejects st)).
  assert (HC0 : host_calls s0' = host_calls (replaced _ st))
    by (unfold s0'; destruct (store_rejects st); reflexivity).
  assert (HA0 : appSettings s0' = appSettings (replaced _ st))
    by (unfold s0'; destruct (store_rejects st); reflexivity).
  rewrite HT0 in Hcase.
  split; [reflexivity|]. split; [|split].
  - eexists. split; [by rewrite Happ, HA0|]. split.
    + cbn [TOTALS]. by rewrite last_snoc.
    + destruct (TOKENS st !! id); destruct Hcase as [_ ->]; rewrite HC0; cbn;
        by rewrite <- app_assoc.
  - intros id' Hne.
    destruct (TOKENS st !! id); destruct Hcase as [-> _];
      by rewrite lookup_insert_ne.
  - intros start end_ Hzero. unfold calculateComparison.
    rewrite (truthy_zero_difference _ Hzero). by split.
Qed.

(** The same at a concrete END: the stored document has an entry named
    ["a"], started without a timer, and the END gives the final value 0. *)
Example action_END_zero_is_no_value_on_stored_entry :
  let st' := exec (action_END sample_env "a" (VNum 0) 1000) app_with_named_entry in
  result (action_END sample_env "a" (VNum 0) 1000) app_with_named_entry = Return tt /\
  (exists s',
     appSettings st' = Some s' /\
     last (TOTALS s') =
       Some {| t_name := VUndefined; t_token := "a"; t_duration := VNull;
               t_comparison := VNull |} /\
     host_calls st' =
       host_calls app_with_named_entry ++
       [HostSettingsSet s'; HostSetValue "a Duration" VNull]) /\
  (forall id', id' <> "a Duration" ->
     TOKENS st' !! id' = TOKENS app_with_named_entry !! id') /\
  (forall start end_,
     PrimFloat.eqb (parseFloat sample_env end_ - parseFloat sample_env start) 0 = true ->
     calculateComparison sample_env start end_ = VNum 0 /\
     calculateComparison sample_env start end_ <> VStr "0.00").
Proof.
  exact (action_END_zero_is_no_value sample_env "a" 1000 app_with_named_entry
           stored_named_entry
           {| c_name := VStr "a"; c_token := "a"; c_date := VNull;
              c_comparison := VNum 5 |}
           eq_refl eq_refl).
Defined.

(** C10. The END of a comparison that [action_START] started, given the
    final value [0], produces no TOTALS entry at all: the lookup of
    [action_END] reads [name], the entry was written with [token], so the
    END throws the TypeError of reading [date] of [undefined] and changes
    nothing.  The other half of the claim holds: when the difference of
    final and baseline value is zero, [calculateComparison] returns the
    number [0], which is not the text ["0.00"]. *)
Theorem action_END_zero_after_START_throws :
  let st1 := exec (action_START sample_env "a" start_timer_5 1000) initialised_app in
  let st2 := exec (action_END sample_env "a" (VNum 0) 2000) st1 in
  (exists s1, appSettings st1 = Some s1 /\ map c_token (COMPARISONS s1) = ["a"]) /\
  result (action_END sample_env "a" (VNum 0) 2000) st1 =
    Throw (TypeError "Cannot read properties of undefined (reading 'date')") /\
  st2 = st1 /\
  (exists s2, appSettings st2 = Some s2 /\ TOTALS s2 = []) /\
  (forall (E : Env) start end_,
     PrimFloat.eqb (parseFloat E end_ - parseFloat E start) 0 = true ->
     calculateComparison E start end_ = VNum 0 /\
     calculateComparison E start end_ <> VStr "0.00").
Proof.
  intros st1 st2.
  assert (H : action_END sample_env "a" (VNum 0) 2000 st1 =
              (Throw (TypeError "Cannot read properties of undefined (reading 'date')"),
               st1)).
  { apply (action_END_after_START_throws sample_env "a" start_timer_5 (VNum 0)
             1000 2000 initialised_app default_settings); [reflexivity|constructor]. }
  unfold st2, exec, result. rewrite H. cbn [fst snd].
  split; [eexists; split; vm_compute; reflexivity|].
  split; [reflexivity|]. split; [reflexivity|]. split.
  - eexists. split; vm_compute; reflexivity.
  - intros E start end_ Hzero. unfold calculateComparison.
    rewrite (truthy_zero_difference _ Hzero). by split.
Qed.

(** * Further properties *)

(** ** The registry only grows *)

Lemma handle_kept_refl h : handle_kept h h.
Proof. by repeat split. Qed.

Lemma handle_kept_trans h1 h2 h3 :
  handle_kept h1 h2 -> handle_kept h2 h3 -> handle_kept h1 h3.
Proof.
  intros (Ht & Hti & Hr) (Ht' & Hti' & Hr'). repeat split; [congruence..|auto].
Qed.

Lemma registry_kept_same st st' : TOKENS st' = TOKENS st -> registry_kept st st'.
Proof.
  intros HT id. rewrite HT. destruct (TOKENS st !! id) as [h|]; [|done].
  exists h. split; [done|apply handle_kept_refl].
Qed.

Lemma registry_kept_trans st1 st2 st3 :
  registry_kept st1 st2 -> registry_kept st2 st3 -> registry_kept st1 st3.
Proof.
  intros H12 H23 id. specialize (H12 id).
  destruct (TOKENS st1 !! id) as [h|]; [|done].
  destruct H12 as (h2 & Hh2 & Hk2). specialize (H23 id). rewrite Hh2 in H23.
  destruct H23 as (h3 & Hh3 & Hk3). exists h3. split; [done|].
  by eapply handle_kept_trans.
Qed.

(** Replacing the handle under [id] by one that keeps it keeps the registry. *)
Lemma registry_kept_insert st st' id (h' : TokenHandle) :
  TOKENS st' = <[id := h']> (TOKENS st) ->
  match TOKENS st !! id with Some h => handle_kept h h' | None => True end ->
  registry_kept st st'.
Proof.
  intros HT Hk id'. destruct (TOKENS st !! id') as [h|] eqn:Hid'; [|done].
  rewrite HT. destruct (decide (id' = id)) as [->|Hne].
  - rewrite Hid' in Hk. exists h'. by rewrite lookup_insert_eq.
  - exists h. rewrite lookup_insert_ne by done. split; [done|apply handle_kept_refl].
Qed.

Section RegistryKept.

Variable E : Env.
Variable L : Lib.

Lemma createToken_kept name o st :
  exists st', createToken E name o st = (Return tt, st') /\ registry_kept st st'.
Proof.
  destruct (createToken_run E name o st) as (st' & Hrun & _ & _ & _ & _ & Hcase).
  exists st'. split; [done|].
  destruct (TOKENS st !! token_id E name (o_src o)) as [h|] eqn:Hid;
    destruct Hcase as [HT _]; eapply registry_kept_insert; try exact HT;
    rewrite Hid; [|done].
  by repeat split.
Qed.

Lemma started_kept c st : registry_kept st (started c st).
Proof.
  unfold started. destruct (TOKENS st !! cr_id c) as [h|] eqn:Hid.
  - eapply registry_kept_insert; [reflexivity|]. rewrite Hid. by repeat split.
  - by apply registry_kept_same.
Qed.

Lemma removed_kept id st : registry_kept st (removed id st).
Proof.
  unfold removed. destruct (TOKENS st !! id) as [h|] eqn:Hid.
  - eapply registry_kept_insert; [reflexivity|]. rewrite Hid. by repeat split.
  - by apply registry_kept_same.
Qed.

Lemma setTokens_kept newSettings oldSettings st :
  exists st',
    setTokens E newSettings oldSettings st = (Return tt, st') /\ registry_kept st st'.
Proof.
  rewrite setTokens_state. eexists. split; [done|].
  eapply (registry_kept_trans _ (started_all (token_specs E newSettings) st)).
  - generalize (token_specs E newSettings). intros cs. revert st.
    induction cs as [|c cs IH]; intros st; [by apply registry_kept_same|].
    rewrite started_all_cons.
    eapply registry_kept_trans; [apply started_kept|apply IH].
  - generalize (started_all (token_specs E newSettings) st).
    generalize (token_ids E (difference newSettings oldSettings)). intros ids.
    induction ids as [|i ids IH]; intros s; [by apply registry_kept_same|].
    rewrite removed_all_cons.
    eapply registry_kept_trans; [apply removed_kept|apply IH].
Qed.

(** The two ways [updateSettings] can end: with the registry as it was, or
    with the registry [setTokens] leaves. *)
Lemma updateSettings_run settings update st :
  exists st',
    updateSettings E settings update st = (Return tt, st') /\
    appSettings st' = Some settings /\
    (TOKENS st' = TOKENS st \/
     exists old s0,
       TOKENS s0 = TOKENS st /\
       setTokens E (VARIABLES settings) (VARIABLES old) s0 = (Return tt, st')).
Proof.
  destruct update.
  - unfold updateSettings, try_catch, bind, gets, modify, host_settings_set. cbn.
    fold (replaced settings st).
    destruct (store_rejects st) eqn:Hrej; cbn.
    { eexists. split; [reflexivity|]. split; [reflexivity|by left]. }
    destruct (appSettings st) as [old|] eqn:Hold; cbn.
    2: { eexists. split; [reflexivity|]. split; [reflexivity|by left]. }
    destruct (setTokens_same_settings E (VARIABLES settings) (VARIABLES old)
                (with_stored (Some settings) (replaced settings st)))
      as (s' & Hrun & Happ & _).
    rewrite Hrun. exists s'. split; [reflexivity|]. split; [by rewrite Happ|].
    right. by exists old, (with_stored (Some settings) (replaced settings st)).
  - rewrite updateSettings_no_sync. eexists. split; [reflexivity|].
    destruct (store_rejects st); split; try reflexivity; by left.
Qed.

Lemma updateSettings_kept settings update st :
  registry_kept st (exec (updateSettings E settings update) st).
Proof.
  destruct (updateSettings_run settings update st)
    as (st' & Hrun & _ & [HT|(old & s0 & HT & Hset)]);
    unfold exec; rewrite Hrun; cbn [snd].
  - by apply registry_kept_same.
  - destruct (setTokens_kept (VARIABLES settings) (VARIABLES old) s0)
      as (s' & Hrun' & Hk).
    rewrite Hset in Hrun'. injection Hrun' as <-.
    eapply registry_kept_trans; [|exact Hk]. by apply registry_kept_same.
Qed.

Lemma action_START_kept token o now st :
  registry_kept st (exec (action_START E token o now) st).
Proof.
  destruct (appSettings st) as [s|] eqn:Hs.
  - unfold exec. rewrite (action_START_run E _ _ _ _ _ Hs), updateSettings_no_sync.
    apply registry_kept_same. by destruct (store_rejects st).
  - unfold exec, action_START, read_appSettings, bind, gets. rewrite Hs.
    by apply registry_kept_same.
Qed.

Lemma action_END_kept token value now st :
  registry_kept st (exec (action_END E token value now) st).
Proof.
  destruct (appSettings st) as [s|] eqn:Hs.
  - destruct (List.find (fun x => strict_eq_string (c_name x) token) (COMPARISONS s))
      as [ec|] eqn:Hfind.
    + unfold exec. rewrite (action_END_found E _ _ _ _ _ _ Hs Hfind). cbv zeta.
      rewrite (bind_run _ _ _ _ _ (updateSettings_no_sync E _ st)).
      match goal with |- context [bind (createToken E ?n ?o) _ ?s0] =>
        destruct (createToken_kept n o s0) as (s1 & R1 & K1);
        assert (K0 : registry_kept st s0)
          by (apply registry_kept_same; by destruct (store_rejects st)) end.
      rewrite (bind_run _ _ _ _ _ R1).
      destruct (truthy _).
      * match goal with |- context [createToken E ?n ?o ?s0] =>
          destruct (createToken_kept n o s0) as (s2 & -> & K2) end.
        eauto using registry_kept_trans.
      * cbn. eauto using registry_kept_trans.
    + unfold exec. rewrite (action_END_not_found E _ _ _ _ _ Hs Hfind).
      by apply registry_kept_same.
  - unfold exec, action_END, read_appSettings, bind, gets. rewrite Hs.
    by apply registry_kept_same.
Qed.

(** A stateless action either throws at once, leaving the state, or is one
    [createToken]. *)
Lemma action_SET_CURRENCY_run token number currency st :
  match toLocaleString L number (translate E "helpers.locale") currency with
  | Return text =>
      action_SET_CURRENCY E L token number currency st =
      createToken E token
        {| o_src := Some "currency"; o_value := Some text; o_type := None |} st
  | Throw e => action_SET_CURRENCY E L token number currency st = (Throw e, st)
  end.
Proof.
  unfold action_SET_CURRENCY, bind, call_out.
  by destruct (toLocaleString L number _ currency).
Qed.

Lemma action_CALCULATION_run token calcType number1 number2 st :
  match calculationType L calcType number1 number2 with
  | Return calculation =>
      action_CALCULATION E L token calcType number1 number2 st =
      createToken E token
        {| o_src := Some "calculation"; o_value := Some calculation;
           o_type := None |} st
  | Throw e =>
      action_CALCULATION E L token calcType number1 number2 st = (Throw e, st)
  end.
Proof.
  unfold action_CALCULATION, bind, call_out.
  by destruct (calculationType L calcType number1 number2).
Qed.

Lemma run_action_kept a st : registry_kept st (exec (run_action E L a) st).
Proof.
  destruct a as [token o now|token value now|token number currency
                |token calcType number1 number2]; cbn [run_action].
  - apply action_START_kept.
  - apply action_END_kept.
  - pose proof (action_SET_CURRENCY_run token number currency st) as H.
    destruct (toLocaleString L number _ currency) as [text|e];
      unfold exec; rewrite H.
    + destruct (createToken_kept token
                  {| o_src := Some "currency"; o_value := Some text; o_type := None |} st)
        as (s1 & -> & K1). exact K1.
    + by apply registry_kept_same.
  - pose proof (action_CALCULATION_run token calcType number1 number2 st) as H.
    destruct (calculationType L calcType number1 number2) as [calculation|e];
      unfold exec; rewrite H.
    + destruct (createToken_kept token
                  {| o_src := Some "calculation"; o_value := Some calculation;
                     o_type := None |} st)
        as (s1 & -> & K1). exact K1.
    + by apply registry_kept_same.
Qed.

Lemma run_call_kept c st : registry_kept st (exec (run_call E L c) st).
Proof.
  destruct c as [a|settings update]; cbn [run_call].
  - apply run_action_kept.
  - apply updateSettings_kept.
Qed.

End RegistryKept.

(** X1. Whatever calls the host makes after start-up (flow actions, new
    settings documents with or without reconciliation), every handle of the
    registry stays in the registry, with the type and the title it was
    created with, and a handle that was unregistered is never registered
    again.  The calls follow one another with no answer to a pending
    registration in between; X15 has the answers as well. *)
Theorem registry_only_grows (E : Env) (L : Lib) (cs : list app_call) (st : App) :
  registry_kept st (run_calls E L cs st).
Proof.
  revert st. induction cs as [|c cs IH]; intros st; cbn [run_calls].
  - by apply registry_kept_same.
  - eapply registry_kept_trans; [apply run_call_kept|apply IH].
Qed.

(** ** createToken and removeToken, composed *)

(** X2. Removing a token and creating it again does not bring it back: when
    the registry held a handle, the second call reuses it, so the host gets
    an unregister request and a value but no registration, and the handle
    stays unregistered.  Only when the registry held nothing is the token
    registered. *)
Theorem removeToken_then_createToken_stays_unregistered
    (E : Env) name src (ov : option value) (oty : option string) (st : App) :
  let o := {| o_src := Some src; o_value := ov; o_type := oty |} in
  let id := token_id E name (Some src) in
  let v := default VNull ov in
  let st' := exec (createToken E name o) (exec (removeToken E name src) st) in
  match TOKENS st !! id with
  | Some h =>
      TOKENS st' =
        <[id := {| tk_type := tk_type h; tk_title := tk_title h; tk_value := v;
                   tk_registered := false |}]> (TOKENS st) /\
      host_calls st' = host_calls st ++ [HostUnregister id; HostSetValue id v]
  | None =>
      TOKENS st' =
        <[id := {| tk_type := default "string" oty;
                   tk_title := token_title E name (Some src); tk_value := v;
                   tk_registered := true |}]> (TOKENS st) /\
      host_calls st' =
        host_calls st ++
        [HostCreateToken id (default "string" oty) (token_title E name (Some src));
         HostSetValue id v]
  end.
Proof.
  intros o id v st'. subst st'.
  destruct (removeToken_run E name src st) as (s1 & R1 & _ & _ & _ & _ & C1).
  unfold exec. rewrite R1. cbn [snd].
  destruct (createToken_run E name o s1) as (s2 & R2 & _ & _ & _ & _ & C2).
  rewrite R2. cbn [snd].
  cbn [o_src o_value o_type o] in C2. fold id v in C1, C2.
  destruct (TOKENS st !! id) as [h|] eqn:Hid.
  - destruct C1 as [HT1 Hc1]. rewrite HT1, lookup_insert_eq in C2.
    destruct C2 as [HT2 Hc2]. rewrite HT2, Hc2, Hc1, insert_insert_eq.
    split; [done|]. by rewrite <- app_assoc.
  - subst s1. rewrite Hid in C2. by destruct C2 as [-> ->].
Qed.

(** X3. [createToken] is idempotent on the registry: a second call with the
    same arguments leaves every handle as the first call left it, and its
    only host call sets the value once more. *)
Theorem createToken_twice_same_registry
    (E : Env) name (o : TokenOptions) (st : App) :
  let id := token_id E name (o_src o) in
  let st1 := exec (createToken E name o) st in
  let st2 := exec (createToken E name o) st1 in
  TOKENS st2 = TOKENS st1 /\
  host_calls st2 = host_calls st1 ++ [HostSetValue id (default VNull (o_value o))].
Proof.
  intros id st1 st2. subst st1 st2.
  destruct (createToken_run E name o st) as (s1 & R1 & _ & _ & _ & _ & C1).
  unfold exec. rewrite R1. cbn [snd].
  destruct (createToken_run E name o s1) as (s2 & R2 & _ & _ & _ & _ & C2).
  rewrite R2. cbn [snd]. fold id in C1, C2.
  assert (exists h1, TOKENS s1 = <[id := h1]> (TOKENS st) /\
                     tk_value h1 = default VNull (o_value o)) as (h1 & HT1 & Hv1).
  { destruct (TOKENS st !! id) as [h|]; destruct C1 as [-> _]; eauto. }
  rewrite HT1, lookup_insert_eq in C2. destruct C2 as [HT2 Hc2].
  split; [|done].
  by rewrite HT2, insert_insert_eq, <- Hv1, set_value_same.
Qed.


(** ** What a reconciliation touches *)

(** X4. [setTokens(newNames, oldNames)] touches nothing but the tokens of
    its names.  A handle under any other identifier is left as it was; the
    host is asked to register or reset only tokens of [newNames] (every
    value it sets is [null]) and to unregister only tokens of names that are
    in [oldNames] and not in [newNames]; the settings are not written. *)
Theorem setTokens_touches_only_its_names
    (E : Env) (newNames oldNames : list string) (st : App) :
  let st' := exec (setTokens E newNames oldNames) st in
  let dropped := List.filter (fun x => negb (includes newNames x)) oldNames in
  (forall id, ~ token_of E newNames id -> ~ token_of E dropped id ->
     TOKENS st' !! id = TOKENS st !! id) /\
  (exists calls,
     host_calls st' = host_calls st ++ calls /\
     Forall (reconciles E newNames dropped) calls) /\
  Forall (fun d => d ∈ oldNames /\ d ∉ newNames) dropped.
Proof.
  intros st' dropped. change dropped with (difference newNames oldNames).
  unfold st', exec. rewrite setTokens_state. cbn [snd].
  split; [|split].
  - intros id Hn Hd.
    rewrite removed_all_lookup_notin by (by rewrite elem_of_token_ids).
    apply started_all_lookup_notin. fold (token_ids E newNames).
    by rewrite elem_of_token_ids.
  - eexists. rewrite removed_all_unregistrations, started_all_calls, <- app_assoc.
    split; [reflexivity|]. apply Forall_app. split.
    + apply Forall_forall. intros call (c & -> & Hc)%list_elem_of_fmap.
      assert (Htok : token_of E newNames (cr_id c)).
      { apply elem_of_token_ids. by apply list_elem_of_fmap_2. }
      pose proof (token_specs_null E newNames) as Hnull.
      rewrite Forall_forall in Hnull. specialize (Hnull c Hc).
      unfold start_call. by destruct (held st (cr_id c)).
    + apply Forall_forall. unfold unregistrations.
      intros call (id & -> & Hid)%list_elem_of_fmap.
      apply list_elem_of_In, filter_In in Hid as [Hid _].
      apply elem_of_token_ids. by apply list_elem_of_In.
  - apply Forall_forall. intros d Hd. by apply elem_of_difference in Hd.
Qed.

(** ** Start-up *)

Lemma started_all_empty cs st :
  TOKENS st = ∅ ->
  TOKENS (started_all cs st) = ∅ /\
  pending (started_all cs st) = pending st ++ cs /\
  host_calls (started_all cs st) = host_calls st ++ registrations cs /\
  same_settings st (started_all cs st).
Proof.
  revert st. induction cs as [|c cs IH]; intros st Hempty.
  { cbn. rewrite !app_nil_r. split; [done|]. split; [done|]. split; [done|].
    apply same_settings_refl. }
  rewrite started_all_cons.
  assert (Hstep : started c st =
                  with_pending (pending st ++ [c])
                    (with_call (HostCreateToken (cr_id c) (cr_type c) (cr_title c)) st)).
  { unfold started. by rewrite Hempty, lookup_empty. }
  rewrite Hstep.
  destruct (IH (with_pending (pending st ++ [c])
                  (with_call (HostCreateToken (cr_id c) (cr_type c) (cr_title c)) st))
               Hempty) as (HT & Hp & Hc & Hs).
  rewrite HT, Hp, Hc. cbn. rewrite <- !app_assoc.
  split; [done|]. split; [done|]. split; [done|].
  eapply same_settings_trans; [|exact Hs]. by repeat split.
Qed.

Section StartUp.

Variable E : Env.

(** [initSettings] never throws: it ends with the stored document in
    memory, or with the default one and the host asked to store it. *)
Lemma initSettings_run h :
  exists st,
    initSettings E h = (Return tt, st) /\
    TOKENS st = ∅ /\ pending st = [] /\
    appSettings st = Some (default default_settings (host_stored h)) /\
    match host_stored h with
    | Some s => stored st = Some s /\ host_calls st = [] /\ error_log st = []
    | None =>
        host_calls st = [HostSettingsSet default_settings] /\
        if host_rejects h
        then stored st = None /\ error_log st = [HostError "settings.set rejected"]
        else stored st = Some default_settings /\ error_log st = []
    end.
Proof.
  unfold initSettings, try_catch, bind, gets, modify, app_created.
  destruct h as [[s|] rejects]; cbn.
  - eexists. split; [reflexivity|]. by cbn.
  - rewrite updateSettings_no_sync. cbn. eexists. split; [reflexivity|].
    by destruct rejects.
Qed.

(** [onInit] up to the call of [flowActions.init]. *)
Lemma onInit_run (F : M unit) h :
  exists s0,
    initSettings E h = (Return tt, s0) /\
    onInit E F h =
    F (started_all (token_specs E (VARIABLES (default default_settings (host_stored h))))
         s0).
Proof.
  destruct (initSettings_run h) as (s0 & R0 & _ & _ & HA & _).
  exists s0. split; [done|].
  unfold onInit. rewrite R0.
  assert (Hread : read_appSettings s0 =
                  (Return (default default_settings (host_stored h)), s0)).
  { unfold read_appSettings, bind, gets. by rewrite HA. }
  rewrite (bind_run _ _ _ _ _ Hread).
  by rewrite (bind_run _ _ _ _ _ (setTokens_state E _ [] s0)).
Qed.

End StartUp.

(** X5. [onInit] ends as [flowActions.init] does, which it calls last, on
    this state: the document in memory is the stored one, or the default
    (three empty lists) when the host has no settings key, in which case the
    host was asked to store the default; the registry is still empty; and
    the host has been asked to register the four tokens of each name in
    VARIABLES, one registration for each occurrence of a name, none of them
    answered yet.  Once the host has answered them, in whatever order, and as
    long as [flowActions.init] has left the registry alone, the registry
    holds exactly the four tokens of each name in VARIABLES: every handle in
    it is one of them, registered, with value [null], and none of them is
    missing. *)
Theorem onInit_registers_the_tracked_names
    (E : Env) (F : M unit) (h : HostStore) (order : list Creation) :
  let doc := default default_settings (host_stored h) in
  let mid := snd (onInit E (ret tt) h) in
  order ≡ₚ token_specs E (VARIABLES doc) ->
  onInit E F h = F mid /\
  appSettings mid = Some doc /\
  stored mid =
    match host_stored h with
    | Some s => Some s
    | None => if host_rejects h then None else Some default_settings
    end /\
  TOKENS mid = ∅ /\
  pending mid = token_specs E (VARIABLES doc) /\
  host_calls mid =
    match host_stored h with
    | Some _ => []
    | None => [HostSettingsSet default_settings]
    end ++ registrations (token_specs E (VARIABLES doc)) /\
  forall id,
    match TOKENS (answered order mid) !! id with
    | Some h =>
        token_of E (VARIABLES doc) id /\ tk_value h = VNull /\ tk_registered h = true
    | None => ~ token_of E (VARIABLES doc) id
    end.
Proof.
  intros doc mid Horder.
  destruct (onInit_run E F h) as (s0 & R0 & HF).
  destruct (onInit_run E (ret tt) h) as (s0' & R0' & Hmid).
  rewrite R0 in R0'. injection R0' as <-.
  destruct (initSettings_run E h) as (s0' & R0' & HT0 & HP0 & HA0 & Hstore).
  rewrite R0 in R0'. injection R0' as <-.
  fold doc in HF, Hmid, HA0.
  assert (Hmid' : mid = started_all (token_specs E (VARIABLES doc)) s0)
    by (unfold mid; by rewrite Hmid).
  destruct (started_all_empty (token_specs E (VARIABLES doc)) s0 HT0)
    as (HT & HP & HC & HA & HS & _ & _).
  rewrite <- Hmid' in *. rewrite HP0 in HP. cbn [app] in HP.
  split; [by rewrite HF, Hmid'|]. split; [by rewrite HA|]. split; [|split; [done|]].
  { rewrite HS. destruct (host_stored h); [by destruct Hstore|].
    destruct Hstore as [_ Hstore]. by destruct (host_rejects h); destruct Hstore. }
  split; [done|]. split.
  { rewrite HC. f_equal. destruct (host_stored h); [by destruct Hstore as (_ & ? & _)|].
    by destruct Hstore as [? _]. }
  intros id. rewrite answered_resumed_all.
  assert (Hin : forall c, c ∈ order <-> c ∈ token_specs E (VARIABLES doc))
    by (intros c; by rewrite Horder).
  destruct (resumed_all_lookup order (with_pending [] mid) id)
    as [[Hnotin ->]|(c & Hc & <- & ->)].
  - cbn. rewrite HT, lookup_empty. rewrite <- elem_of_token_ids.
    intros (c & -> & Hc)%list_elem_of_fmap. apply Hnotin.
    apply list_elem_of_fmap_2. by apply Hin.
  - apply Hin in Hc. split; [|split; [|done]].
    + apply elem_of_token_ids. by apply list_elem_of_fmap_2.
    + pose proof (token_specs_null E (VARIABLES doc)) as Hnull.
      rewrite Forall_forall in Hnull. by apply Hnull.
Qed.

(** X5 at a concrete start: the host stores a document that tracks ["a"],
    [flowActions.init] throws, and the host answers the registrations in
    reverse. *)
Lemma onInit_registers_the_tracked_names_witness :
  let h := {| host_stored := Some stored_named_entry; host_rejects := false |} in
  let F : M unit := throw (Error "no flow cards") in
  let order := rev (four_creations sample_env "a") in
  let mid := snd (onInit sample_env (ret tt) h) in
  order ≡ₚ token_specs sample_env ["a"] /\
  (onInit sample_env F h = F mid /\
   appSettings mid = Some stored_named_entry /\
   stored mid = Some stored_named_entry /\
   TOKENS mid = ∅ /\
   pending mid = token_specs sample_env ["a"] /\
   host_calls mid = [] ++ registrations (token_specs sample_env ["a"]) /\
   forall id,
     match TOKENS (answered order mid) !! id with
     | Some h =>
         token_of sample_env ["a"] id /\ tk_value h = VNull /\ tk_registered h = true
     | None => ~ token_of sample_env ["a"] id
     end) /\
  fst (onInit sample_env F h) = Throw (Error "no flow cards") /\
  host_calls mid =
    [HostCreateToken "a Duration" "string" "a Duration";
     HostCreateToken "a Currency" "string" "a Currency";
     HostCreateToken "a Comparison" "number" "a Comparison";
     HostCreateToken "a Calculation" "number" "a Calculation"].
Proof.
  intros h F order mid.
  assert (H : order ≡ₚ token_specs sample_env ["a"]).
  { symmetry. apply (Permutation_rev (four_creations sample_env "a")). }
  split; [exact H|]. split.
  - exact (onInit_registers_the_tracked_names sample_env F h order H).
  - vm_compute. by split.
Defined.

(** ** Flow actions on a document the app wrote itself *)

Section FlowActions.

Variable E : Env.
Variable L : Lib.

Lemma createToken_same_settings name o st :
  appSettings (exec (createToken E name o) st) = appSettings st.
Proof.
  destruct (createToken_run E name o st) as (st' & Hrun & Happ & _).
  unfold exec. by rewrite Hrun.
Qed.

(** One flow action on a document without [name] properties: only a START
    changes the document, by appending its entry. *)
Lemma run_action_unnamed a st s :
  appSettings st = Some s -> unnamed s ->
  exists s',
    appSettings (exec (run_action E L a) st) = Some s' /\ unnamed s' /\
    VARIABLES s' = VARIABLES s /\
    COMPARISONS s' = COMPARISONS s ++ started_entries [a] /\
    TOTALS s' = TOTALS s.
Proof.
  intros Hs [Hc Ht].
  destruct a as [token o now|token value now|token number currency
                |token calcType number1 number2]; cbn [run_action started_entries].
  - unfold exec. rewrite (action_START_run E _ _ _ _ _ Hs), updateSettings_no_sync.
    cbn [snd]. eexists. split; [by destruct (store_rejects st)|].
    cbn [VARIABLES COMPARISONS TOTALS].
    rewrite filter_name_keeps_unnamed by done.
    repeat split; [|done]. apply Forall_app. split; [done|]. by constructor.
  - unfold exec. rewrite (action_END_not_found E _ _ _ _ _ Hs);
      [|by apply find_name_misses_unnamed].
    exists s. by rewrite app_nil_r.
  - pose proof (action_SET_CURRENCY_run E L token number currency st) as H.
    destruct (toLocaleString L number _ currency) as [text|e].
    + unfold exec. rewrite H. fold (exec (createToken E token
        {| o_src := Some "currency"; o_value := Some text; o_type := None |}) st).
      rewrite createToken_same_settings. exists s. by rewrite app_nil_r.
    + unfold exec. rewrite H. exists s. by rewrite app_nil_r.
  - pose proof (action_CALCULATION_run E L token calcType number1 number2 st) as H.
    destruct (calculationType L calcType number1 number2) as [calculation|e].
    + unfold exec. rewrite H. fold (exec (createToken E token
        {| o_src := Some "calculation"; o_value := Some calculation;
           o_type := None |}) st).
      rewrite createToken_same_settings. exists s. by rewrite app_nil_r.
    + unfold exec. rewrite H. exists s. by rewrite app_nil_r.
Qed.

Lemma started_entries_cons a acts :
  started_entries (a :: acts) = started_entries [a] ++ started_entries acts.
Proof. by destruct a. Qed.

End FlowActions.

(** X6. Starting from a document in which no entry has a [name] property
    (the default document, and every document the app writes itself), any
    sequence of flow actions keeps the document in that shape, never changes
    VARIABLES or TOTALS, and appends to COMPARISONS exactly one entry per
    START, in order, removing none.  So no END in such a sequence ever
    records a total. *)
Theorem flow_actions_never_record_a_total
    (E : Env) (L : Lib) (acts : list flow_action) (st : App) (s : Settings) :
  appSettings st = Some s -> unnamed s ->
  exists s',
    appSettings (run_calls E L (map FlowAction acts) st) = Some s' /\
    unnamed s' /\
    VARIABLES s' = VARIABLES s /\
    COMPARISONS s' = COMPARISONS s ++ started_entries acts /\
    TOTALS s' = TOTALS s.
Proof.
  revert st s. induction acts as [|a acts IH]; intros st s Hs Hun.
  - exists s. cbn. by rewrite app_nil_r.
  - cbn [map run_calls run_call].
    destruct (run_action_unnamed E L a st s Hs Hun)
      as (s1 & Hs1 & Hun1 & HV1 & HC1 & HT1).
    destruct (IH _ s1 Hs1 Hun1) as (s' & Hs' & Hun' & HV & HC & HT).
    exists s'. split; [done|]. split; [done|].
    rewrite HV, HC, HT, HV1, HC1, HT1, (started_entries_cons a acts), <- app_assoc.
    by repeat split.
Qed.

(** X6 on the initialised app: a START, an END, a second START of the same
    name and a calculation. *)
Lemma flow_actions_never_record_a_total_witness :
  exists s',
    appSettings
      (run_calls sample_env sample_lib
         (map FlowAction
            [START "a" start_timer_5 1000; END "a" (VNum 7) 1500;
             START "a" start_timer_5 2000;
             CALCULATION "a" (VStr "add") (VNum 1) (VNum 2)])
         initialised_app) = Some s' /\
    unnamed s' /\
    VARIABLES s' = VARIABLES default_settings /\
    COMPARISONS s' =
      COMPARISONS default_settings ++
      started_entries
        [START "a" start_timer_5 1000; END "a" (VNum 7) 1500;
         START "a" start_timer_5 2000;
         CALCULATION "a" (VStr "add") (VNum 1) (VNum 2)] /\
    TOTALS s' = TOTALS default_settings.
Proof.
  apply (flow_actions_never_record_a_total sample_env sample_lib
           [START "a" start_timer_5 1000; END "a" (VNum 7) 1500;
            START "a" start_timer_5 2000;
            CALCULATION "a" (VStr "add") (VNum 1) (VNum 2)]
           initialised_app default_settings).
  - reflexivity.
  - split; constructor.
Defined.

(** ** An END that finds its entry *)

Section Ended.

Variable E : Env.

(** [createToken] with a value: the handle under the identifier has that
    value afterwards, every other handle and the settings are as before. *)
Lemma createToken_sets name o st :
  exists st',
    createToken E name o st = (Return tt, st') /\
    same_settings st st' /\
    (exists h, TOKENS st' !! token_id E name (o_src o) = Some h /\
               tk_value h = default VNull (o_value o) /\
               tk_type h =
                 match TOKENS st !! token_id E name (o_src o) with
                 | Some h0 => tk_type h0
                 | None => default "string" (o_type o)
                 end) /\
    (forall id, id <> token_id E name (o_src o) ->
                TOKENS st' !! id = TOKENS st !! id).
Proof.
  destruct (createToken_run E name o st) as (st' & Hrun & ? & ? & ? & ? & Hcase).
  exists st'. split; [done|]. split; [by repeat split|].
  destruct (TOKENS st !! token_id E name (o_src o)) as [h|];
    destruct Hcase as [HT _]; rewrite HT; (split;
      [eexists; rewrite lookup_insert_eq; by repeat split
      |intros id Hne; by rewrite lookup_insert_ne]).
Qed.

End Ended.

(** X7. When the lookup of [action_END] finds an entry [ec] for the name,
    the call returns.  The new document has the same VARIABLES and the same
    COMPARISONS (the entry is not removed, so the END can be repeated), and
    its TOTALS are the old ones without those whose [name] is the name,
    followed by the new total.  The duration token gets the duration.  The
    comparison token gets the number parsed from the comparison text when
    that text is truthy, and is not touched otherwise; no other token
    changes. *)
Theorem action_END_found_effect (E : Env) token value now st s ec :
  appSettings st = Some s ->
  List.find (fun x => strict_eq_string (c_name x) token) (COMPARISONS s) = Some ec ->
  let st' := exec (action_END E token value now) st in
  let date := if truthy (c_date ec) then VDate now else VNull in
  let duration :=
    if truthy date then calculateDuration E (c_date ec) date else VNull in
  let comparison :=
    if truthy value then calculateComparison E (c_comparison ec) value else VNull in
  let id_d := token_id E token (Some "duration") in
  let id_c := token_id E token (Some "comparison") in
  result (action_END E token value now) st = Return tt /\
  (exists s',
     appSettings st' = Some s' /\
     VARIABLES s' = VARIABLES s /\ COMPARISONS s' = COMPARISONS s /\
     TOTALS s' =
       List.filter (fun total => negb (strict_eq_string (t_name total) token))
                   (TOTALS s) ++
       [{| t_name := VUndefined; t_token := token; t_duration := duration;
           t_comparison := comparison |}]) /\
  if truthy comparison then
    (exists h, TOKENS st' !! id_c = Some h /\
               tk_value h = VNum (parseFloat E comparison)) /\
    (id_d <> id_c ->
     exists h, TOKENS st' !! id_d = Some h /\ tk_value h = duration) /\
    (forall id, id <> id_d -> id <> id_c -> TOKENS st' !! id = TOKENS st !! id)
  else
    (exists h, TOKENS st' !! id_d = Some h /\ tk_value h = duration) /\
    (forall id, id <> id_d -> TOKENS st' !! id = TOKENS st !! id).
Proof.
  intros Hs Hfind st' date duration comparison id_d id_c. subst st'.
  unfold exec, result.
  rewrite (action_END_found E _ _ _ _ _ _ Hs Hfind). cbv zeta.
  rewrite (bind_run _ _ _ _ _ (updateSettings_no_sync E _ st)).
  change (t_duration (ended_total E token ec value now)) with duration.
  change (t_comparison (ended_total E token ec value now)) with comparison.
  match goal with |- context [bind (createToken E ?n ?o) _ ?s0] =>
    destruct (createToken_sets E n o s0) as (s1 & R1 & S1 & (h1 & Hh1 & Hv1 & _) & F1);
    set (s0' := s0) in * end.
  rewrite (bind_run _ _ _ _ _ R1).
  cbn [o_src o_value default] in Hh1, Hv1, F1. fold id_d in Hh1, F1.
  assert (HT0 : TOKENS s0' = TOKENS st) by (unfold s0'; by destruct (store_rejects st)).
  assert (HA0 : appSettings s0' = appSettings (replaced
            {| VARIABLES := VARIABLES s; COMPARISONS := COMPARISONS s;
               TOTALS :=
                 List.filter (fun total => negb (strict_eq_string (t_name total) token))
                             (TOTALS s) ++ [ended_total E token ec value now] |} st))
    by (unfold s0'; destruct (store_rejects st); reflexivity).
  destruct S1 as (HA1 & _).
  destruct (truthy comparison) eqn:Hcmp.
  - match goal with |- context [createToken E ?n ?o ?s0] =>
      destruct (createToken_sets E n o s0)
        as (s2 & R2 & (HA2 & _) & (h2 & Hh2 & Hv2 & _) & F2) end.
    cbn [o_src o_value default] in Hh2, Hv2, F2. fold id_c in Hh2, F2.
    rewrite R2. cbn [fst snd].
    split; [reflexivity|]. split; [|split; [|split]].
    + eexists. split; [by rewrite HA2, HA1, HA0|]. by repeat split.
    + by exists h2.
    + intros Hne. exists h1. by rewrite F2.
    + intros id Hd Hc. by rewrite F2, F1, HT0.
  - cbn [fst snd ret].
    split; [reflexivity|]. split; [|split].
    + eexists. split; [by rewrite HA1, HA0|]. by repeat split.
    + by exists h1.
    + intros id Hd. by rewrite F1, HT0.
Qed.

(** X7 on the document with the named entry: an END whose final value is
    the baseline. *)
Lemma action_END_found_effect_witness :
  let st' := exec (action_END sample_env "a" (VNum 5) 1000) app_with_named_entry in
  result (action_END sample_env "a" (VNum 5) 1000) app_with_named_entry = Return tt /\
  (exists s',
     appSettings st' = Some s' /\
     VARIABLES s' = ["a"] /\ COMPARISONS s' = COMPARISONS stored_named_entry /\
     TOTALS s' =
       [{| t_name := VUndefined; t_token := "a"; t_duration := VNull;
           t_comparison := VNum 0 |}]) /\
  (exists h, TOKENS st' !! "a Duration" = Some h /\ tk_value h = VNull) /\
  (forall id, id <> "a Duration" ->
     TOKENS st' !! id = TOKENS app_with_named_entry !! id).
Proof.
  exact (action_END_found_effect sample_env "a" (VNum 5) 1000 app_with_named_entry
           stored_named_entry
           {| c_name := VStr "a"; c_token := "a"; c_date := VNull;
              c_comparison := VNum 5 |}
           eq_refl eq_refl).
Defined.

(** ** Numbers that are not numbers, and equal dates *)

Lemma Prim2SF_nan : FloatOps.Prim2SF nan = SpecFloat.S754_nan.
Proof. reflexivity. Qed.

Lemma is_nan_Prim2SF (x : float) :
  PrimFloat.is_nan x = true <-> FloatOps.Prim2SF x = SpecFloat.S754_nan.
Proof.
  unfold PrimFloat.is_nan. rewrite FloatAxioms.eqb_spec.
  destruct (FloatOps.Prim2SF x) as [s|s| |s m e]; cbn; split; try done.
  - by destruct s.
  - destruct s; rewrite Z.compare_refl, Pos.compare_cont_refl; discriminate.
Qed.

(** A difference with [NaN] on either side is [NaN]. *)
Lemma sub_is_nan (x y : float) :
  PrimFloat.is_nan x = true \/ PrimFloat.is_nan y = true ->
  PrimFloat.is_nan (x - y) = true.
Proof.
  intros H. apply is_nan_Prim2SF. rewrite FloatAxioms.sub_spec.
  unfold FloatAxioms.SF64sub, SpecFloat.SFsub.
  destruct H as [H|H]; apply is_nan_Prim2SF in H; rewrite H; [done|].
  by destruct (FloatOps.Prim2SF x).
Qed.

(** The difference of a finite number with itself is [+0]. *)
Lemma sub_diag_finite (x : float) :
  PrimFloat.is_finite x = true -> (x - x)%float = 0%float.
Proof.
  intros Hfin. apply FloatAxioms.Prim2SF_inj. rewrite FloatAxioms.sub_spec.
  change (FloatOps.Prim2SF 0) with (SpecFloat.S754_zero false).
  unfold PrimFloat.is_finite in Hfin.
  destruct (FloatOps.Prim2SF x) as [s|s| |s m e] eqn:Hx.
  - unfold FloatAxioms.SF64sub, SpecFloat.SFsub. by destruct s.
  - exfalso. assert (PrimFloat.is_infinity x = true) as Hinf.
    { unfold PrimFloat.is_infinity.
      rewrite FloatAxioms.eqb_spec, FloatAxioms.abs_spec, Hx. reflexivity. }
    rewrite Hinf, orb_true_r in Hfin. discriminate.
  - exfalso. apply is_nan_Prim2SF in Hx. rewrite Hx in Hfin. discriminate.
  - unfold FloatAxioms.SF64sub, SpecFloat.SFsub. rewrite Z.min_id.
    unfold SpecFloat.shl_align. rewrite Z.sub_diag. reflexivity.
Qed.

(** X8. When the baseline or the final value does not parse to a number
    (it is [null], [undefined], a boolean, a date, [NaN], or text without a
    numeric prefix), [calculateComparison] returns the number [0]: the same
    result as for two equal numbers. *)
Theorem calculateComparison_without_a_number (E : Env) (start end_ : value) :
  PrimFloat.is_nan (parseFloat E start) = true \/
  PrimFloat.is_nan (parseFloat E end_) = true ->
  calculateComparison E start end_ = VNum 0.
Proof.
  intros H. unfold calculateComparison. cbn [truthy].
  rewrite (sub_is_nan (parseFloat E end_) (parseFloat E start)) by tauto.
  by rewrite orb_true_r.
Qed.

(** X8 for an entry started without baseline and the final value 7. *)
Lemma calculateComparison_without_a_number_witness :
  calculateComparison sample_env VNull (VNum 7) = VNum 0.
Proof.
  exact (calculateComparison_without_a_number sample_env VNull (VNum 7)
           (or_introl eq_refl)).
Defined.

(** X9. The duration between a date and itself is what [splitTime] makes of
    zero, for every date with a finite time value. *)
Theorem calculateDuration_of_equal_dates (E : Env) (t : float) :
  PrimFloat.is_finite t = true ->
  calculateDuration E (VDate t) (VDate t) = splitTime E 0 (translate E).
Proof.
  intros Hfin. unfold calculateDuration. cbn [toNumber].
  rewrite (sub_diag_finite t Hfin). reflexivity.
Qed.

(** X9 for the time value 1000. *)
Lemma calculateDuration_of_equal_dates_witness :
  calculateDuration sample_env (VDate 1000) (VDate 1000) =
  splitTime sample_env 0 (translate sample_env).
Proof.
  exact (calculateDuration_of_equal_dates sample_env 1000 eq_refl).
Defined.


(** ** The stateless actions *)

Lemma createToken_pending (E : Env) name o st :
  pending (exec (createToken E name o) st) = pending st.
Proof.
  unfold exec, createToken, bind, gets, host_createToken, token_setValue, modify, ret.
  cbn. destruct (TOKENS st !! formatToken E (token_title E name (o_src o))) eqn:Hid; cbn.
  - by rewrite Hid.
  - by rewrite lookup_insert_eq.
Qed.

(** What an awaited [createToken] with a value does to the registry and
    asks of the host. *)
Lemma createToken_effect (E : Env) name src v st :
  let o := {| o_src := Some src; o_value := Some v; o_type := None |} in
  let id := token_id E name (Some src) in
  let st' := exec (createToken E name o) st in
  result (createToken E name o) st = Return tt /\
  same_settings st st' /\
  pending st' = pending st /\
  match TOKENS st !! id with
  | None =>
      host_calls st' =
        host_calls st ++
        [HostCreateToken id "string" (token_title E name (Some src));
         HostSetValue id v] /\
      TOKENS st' =
        <[id := {| tk_type := "string"; tk_title := token_title E name (Some src);
                   tk_value := v; tk_registered := true |}]> (TOKENS st)
  | Some h =>
      host_calls st' = host_calls st ++ [HostSetValue id v] /\
      TOKENS st' = <[id := set_value v h]> (TOKENS st)
  end.
Proof.
  intros o id st'.
  pose proof (createToken_pending E name o st) as Hp. fold st' in Hp.
  destruct (createToken_run E name o st) as (s1 & Hrun & ? & ? & ? & ? & Hcase).
  unfold st', exec, result in *. rewrite Hrun in *. cbn [fst snd] in *.
  cbn [o o_src o_value o_type default] in Hcase. fold id in Hcase.
  split; [done|]. split; [by repeat split|]. split; [done|].
  destruct (TOKENS st !! id); by destruct Hcase.
Qed.

(** X10. [action_CALCULATION] leaves the settings and the pending
    registrations alone.  When [calculationType] throws, the action throws
    the same error and nothing has changed.  When it returns, the action
    returns.  If the registry has no handle for the calculation token of the
    name, the host is asked to register it with type ["string"] and the
    title of the token, then to set its value to the result, and the
    registry gets that registered handle; if it has one, the host is only
    asked to set the value, and the handle keeps its type, its title and its
    registration.  No other token changes. *)
Theorem action_CALCULATION_effect
    (E : Env) (L : Lib) token (calcType number1 number2 : value) (st : App) :
  let st' := exec (action_CALCULATION E L token calcType number1 number2) st in
  let id := token_id E token (Some "calculation") in
  match calculationType L calcType number1 number2 with
  | Throw e =>
      action_CALCULATION E L token calcType number1 number2 st = (Throw e, st)
  | Return calculation =>
      result (action_CALCULATION E L token calcType number1 number2) st = Return tt /\
      same_settings st st' /\
      pending st' = pending st /\
      match TOKENS st !! id with
      | None =>
          host_calls st' =
            host_calls st ++
            [HostCreateToken id "string" (token_title E token (Some "calculation"));
             HostSetValue id calculation] /\
          TOKENS st' =
            <[id := {| tk_type := "string";
                       tk_title := token_title E token (Some "calculation");
                       tk_value := calculation; tk_registered := true |}]> (TOKENS st)
      | Some h =>
          host_calls st' = host_calls st ++ [HostSetValue id calculation] /\
          TOKENS st' = <[id := set_value calculation h]> (TOKENS st)
      end
  end.
Proof.
  intros st' id. subst st'.
  pose proof (action_CALCULATION_run E L token calcType number1 number2 st) as H.
  destruct (calculationType L calcType number1 number2) as [calculation|e]; [|done].
  unfold exec, result. rewrite H.
  apply (createToken_effect E token "calculation" calculation st).
Qed.

(** X11. [action_SET_CURRENCY] leaves the settings and the pending
    registrations alone.  When the formatting throws (as [toLocaleString]
    does on a currency code it does not accept), the action throws the same
    error and nothing has changed.  When it returns, the action returns.  If
    the registry has no handle for the currency token of the name, the host
    is asked to register it with type ["string"] and the title of the token,
    then to set its value to the formatted text, and the registry gets that
    registered handle; if it has one, the host is only asked to set the
    value, and the handle keeps its type, its title and its registration.
    No other token changes. *)
Theorem action_SET_CURRENCY_effect
    (E : Env) (L : Lib) token (number currency : value) (st : App) :
  let st' := exec (action_SET_CURRENCY E L token number currency) st in
  let id := token_id E token (Some "currency") in
  match toLocaleString L number (translate E "helpers.locale") currency with
  | Throw e => action_SET_CURRENCY E L token number currency st = (Throw e, st)
  | Return text =>
      result (action_SET_CURRENCY E L token number currency) st = Return tt /\
      same_settings st st' /\
      pending st' = pending st /\
      match TOKENS st !! id with
      | None =>
          host_calls st' =
            host_calls st ++
            [HostCreateToken id "string" (token_title E token (Some "currency"));
             HostSetValue id text] /\
          TOKENS st' =
            <[id := {| tk_type := "string";
                       tk_title := token_title E token (Some "currency");
                       tk_value := text; tk_registered := true |}]> (TOKENS st)
      | Some h =>
          host_calls st' = host_calls st ++ [HostSetValue id text] /\
          TOKENS st' = <[id := set_value text h]> (TOKENS st)
      end
  end.
Proof.
  intros st' id. subst st'.
  pose proof (action_SET_CURRENCY_run E L token number currency st) as H.
  destruct (toLocaleString L number _ currency) as [text|e]; [|done].
  unfold exec, result. rewrite H.
  apply (createToken_effect E token "currency" text st).
Qed.

(** ** A settings update with reconciliation *)

Lemma updateSettings_sync_run (E : Env) settings st old :
  appSettings st = Some old -> store_rejects st = false ->
  updateSettings E settings true st =
  setTokens E (VARIABLES settings) (VARIABLES old)
    (with_stored (Some settings) (replaced settings st)).
Proof.
  intros Hold Hrej.
  unfold updateSettings, try_catch, bind, gets, modify, host_settings_set. cbn.
  fold (replaced settings st). rewrite Hrej, Hold. cbn.
  destruct (setTokens_same_settings E (VARIABLES settings) (VARIABLES old)
              (with_stored (Some settings) (replaced settings st)))
    as (s' & Hrun & _).
  by rewrite Hrun.
Qed.

(** X12. A settings update with reconciliation, on an initialised app whose
    host accepts the write and has nothing left to answer, returns, and
    replaces and stores the document.  If the identifiers of the tokens of
    the new VARIABLES and of the names that left VARIABLES are pairwise
    distinct, then once the host has answered the registrations the update
    started, in whatever order, the registry is reset to the document: each
    token of each name in the new VARIABLES is held with value [null],
    whatever an END or another action had published on it, as the handle
    held before or else as a newly registered one; each token of a name that
    left VARIABLES is unregistered if it was held; and the host calls made
    are the write of the document, then those of the reconciliation. *)
Theorem updateSettings_sync_resets_tracked_tokens
    (E : Env) (settings old : Settings) (st : App) (order : list Creation) :
  let dropped := difference (VARIABLES settings) (VARIABLES old) in
  let st1 := exec (updateSettings E settings true) st in
  let st2 := answered order st1 in
  appSettings st = Some old -> store_rejects st = false -> pending st = [] ->
  NoDup (token_ids E (VARIABLES settings ++ dropped)) ->
  order ≡ₚ pending st1 ->
  result (updateSettings E settings true) st = Return tt /\
  appSettings st2 = Some settings /\ stored st2 = Some settings /\
  pending st2 = [] /\
  Forall (fun name =>
            Forall (fun c =>
                      TOKENS st2 !! cr_id c =
                      Some (match TOKENS st !! cr_id c with
                            | Some h => set_value VNull h
                            | None => created_handle c
                            end))
                   (four_creations E name))
         (VARIABLES settings) /\
  Forall (fun name =>
            name ∉ VARIABLES settings ->
            Forall (fun kind =>
                      TOKENS st2 !! token_id E name (Some kind) =
                      set_unregistered <$> TOKENS st !! token_id E name (Some kind))
                   kinds)
         (VARIABLES old) /\
  host_calls st2 =
    host_calls st ++ HostSettingsSet settings ::
    map (start_call st) (token_specs E (VARIABLES settings)) ++
    unregistrations st (token_ids E dropped) ++ value_sets order.
Proof.
  intros dropped st1 st2 Hold Hrej Hidle Hdistinct Horder.
  set (s0 := with_stored (Some settings) (replaced settings st)).
  assert (Hrun : updateSettings E settings true st =
                 setTokens E (VARIABLES settings) (VARIABLES old) s0)
    by (by apply updateSettings_sync_run).
  assert (Hst1 : st1 = exec (setTokens E (VARIABLES settings) (VARIABLES old)) s0)
    by (unfold st1, exec; by rewrite Hrun).
  assert (Hidle0 : pending s0 = []) by exact Hidle.
  rewrite Hst1 in Horder. unfold st2. rewrite Hst1.
  split; [unfold result; rewrite Hrun; apply setTokens_result|].
  assert (Hsame : same_settings s0
            (answered order (exec (setTokens E (VARIABLES settings) (VARIABLES old)) s0))).
  { rewrite answered_resumed_all.
    eapply same_settings_trans; [|apply resumed_all_same_settings].
    destruct (setTokens_same_settings E (VARIABLES settings) (VARIABLES old) s0)
      as (s' & Hs' & Hsame).
    unfold exec. rewrite Hs'. exact Hsame. }
  destruct Hsame as (HA & HS & _).
  split; [by rewrite HA|]. split; [by rewrite HS|].
  split; [by apply (st2_pending E _ _ s0 order)|].
  split; [|split].
  - apply Forall_forall. intros name Hname. apply Forall_forall. intros c Hc.
    apply (st2_lookup_new E _ _ s0 order); try done.
    apply elem_of_token_specs. by exists name.
  - apply Forall_forall. intros name Ho Hn. apply Forall_forall. intros kind Hkind.
    apply (st2_lookup_dropped E _ _ s0 order); try done.
    apply elem_of_token_ids. exists name, kind.
    split; [|done]. by apply elem_of_difference.
  - rewrite (st2_calls E _ _ s0 order) by done. cbn [s0 host_calls with_stored replaced
      with_call with_appSettings]. by rewrite <- app_assoc.
Qed.

(** X12 on the app that tracks ["a"] and ["b"] and has published a
    calculation for ["a"], updated to a document that tracks ["a"] and
    ["c"]; the host answers the registrations of ["c"] in reverse. *)
Lemma updateSettings_sync_resets_tracked_tokens_witness :
  let st := app_updated_a_b in
  let settings := doc_tracking ["a"; "c"] in
  let order := rev (four_creations sample_env "c") in
  let st1 := exec (updateSettings sample_env settings true) st in
  let st2 := answered order st1 in
  (appSettings st = Some (doc_tracking ["a"; "b"]) /\
   store_rejects st = false /\ pending st = [] /\
   NoDup (token_ids sample_env (["a"; "c"] ++ difference ["a"; "c"] ["a"; "b"])) /\
   order ≡ₚ pending st1) /\
  (result (updateSettings sample_env settings true) st = Return tt /\
   appSettings st2 = Some settings /\ stored st2 = Some settings /\
   pending st2 = [] /\
   Forall (fun name =>
             Forall (fun c =>
                       TOKENS st2 !! cr_id c =
                       Some (match TOKENS st !! cr_id c with
                             | Some h => set_value VNull h
                             | None => created_handle c
                             end))
                    (four_creations sample_env name))
          ["a"; "c"] /\
   Forall (fun name =>
             name ∉ ["a"; "c"] ->
             Forall (fun kind =>
                       TOKENS st2 !! token_id sample_env name (Some kind) =
                       set_unregistered <$>
                         TOKENS st !! token_id sample_env name (Some kind))
                    kinds)
          ["a"; "b"] /\
   host_calls st2 =
     host_calls st ++ HostSettingsSet settings ::
     map (start_call st) (token_specs sample_env ["a"; "c"]) ++
     unregistrations st (token_ids sample_env (difference ["a"; "c"] ["a"; "b"])) ++
     value_sets order) /\
  (TOKENS st !! "a Calculation" =
     Some {| tk_type := "number"; tk_title := "a Calculation"; tk_value := VNum 3;
             tk_registered := true |} /\
   TOKENS st2 !! "a Calculation" =
     Some {| tk_type := "number"; tk_title := "a Calculation"; tk_value := VNull;
             tk_registered := true |} /\
   TOKENS st2 !! "b Duration" =
     Some {| tk_type := "string"; tk_title := "b Duration"; tk_value := VNull;
             tk_registered := false |} /\
   TOKENS st2 !! "c Duration" =
     Some {| tk_type := "string"; tk_title := "c Duration"; tk_value := VNull;
             tk_registered := true |}).
Proof.
  intros st settings order st1 st2.
  assert (H1 : appSettings st = Some (doc_tracking ["a"; "b"])) by reflexivity.
  assert (H2 : store_rejects st = false) by reflexivity.
  assert (H3 : pending st = []) by reflexivity.
  assert (H4 : NoDup (token_ids sample_env
                        (["a"; "c"] ++ difference ["a"; "c"] ["a"; "b"]))).
  { apply (bool_decide_unpack _). vm_compute. exact I. }
  assert (H5 : order ≡ₚ pending st1).
  { symmetry. apply (Permutation_rev (four_creations sample_env "c")). }
  split; [by repeat split|]. split.
  - exact (updateSettings_sync_resets_tracked_tokens
             sample_env settings (doc_tracking ["a"; "b"]) st order H1 H2 H3 H4 H5).
  - vm_compute. by repeat split.
Defined.

(** ** A reconciliation, before the host answers *)

(** X13. When [setTokens] returns, it has started its calls and none of the
    registrations has been answered: the registry holds the identifiers it
    held, and one registration is pending for each occurrence of an
    identifier it lacks. *)
Theorem setTokens_returns_before_the_host_answers (E : Env) newSettings oldSettings st :
  let st1 := exec (setTokens E newSettings oldSettings) st in
  let dropped := difference newSettings oldSettings in
  result (setTokens E newSettings oldSettings) st = Return tt /\
  (forall id, held st1 id = held st id) /\
  pending st1 =
    pending st ++
    filter (fun c => held st (cr_id c) = false) (token_specs E newSettings) /\
  host_calls st1 =
    host_calls st ++ map (start_call st) (token_specs E newSettings) ++
    unregistrations st (token_ids E dropped).
Proof.
  intros st1 dropped. unfold st1, exec, result.
  rewrite setTokens_state. cbn [fst snd]. fold dropped.
  split; [done|]. split; [|split].
  - intros id. induction (token_ids E dropped) as [|i ids IH] using rev_ind.
    + apply started_all_held.
    + unfold removed_all in *. by rewrite foldl_app, <- IH; cbn; rewrite removed_held.
  - by rewrite removed_all_pending, started_all_pending.
  - rewrite removed_all_unregistrations, started_all_calls, <- app_assoc.
    do 2 f_equal. apply unregistrations_ext. intros id _. apply started_all_held.
Qed.

(** ** A name dropped before the host has answered *)

Lemma removed_all_unheld ids st :
  (forall id, id ∈ ids -> TOKENS st !! id = None) -> removed_all ids st = st.
Proof.
  induction ids as [|i ids IH]; intros Hnone; [done|].
  rewrite removed_all_cons.
  assert (Hstep : removed i st = st).
  { unfold removed. rewrite Hnone; [done|]. apply elem_of_cons. by left. }
  rewrite Hstep. apply IH. intros id Hid. apply Hnone, elem_of_cons. by right.
Qed.

(** X14. A name that is tracked and dropped again before the host has
    answered its registrations keeps its tokens: the second reconciliation
    finds no handle to unregister and asks nothing of the host, and the
    answers, whenever they come, put registered handles for all tokens of
    the name in the registry, where nothing will unregister them. *)
Theorem setTokens_drop_before_answer_keeps_tokens
    (E : Env) (names : list string) (st : App) (order : list Creation) :
  let st1 := exec (setTokens E names []) st in
  let st2 := exec (setTokens E [] names) st1 in
  TOKENS st = ∅ -> pending st = [] -> order ≡ₚ pending st2 ->
  result (setTokens E [] names) st1 = Return tt /\
  st2 = st1 /\
  pending st2 = token_specs E names /\
  forall id, token_of E names id ->
    exists h, TOKENS (answered order st2) !! id = Some h /\
              tk_registered h = true /\ tk_value h = VNull.
Proof.
  intros st1 st2 Hempty Hidle.
  assert (Hst1 : st1 = started_all (token_specs E names) st).
  { unfold st1, exec. by rewrite setTokens_state. }
  destruct (started_all_empty (token_specs E names) st Hempty) as (HT & HP & _).
  rewrite <- Hst1 in HT, HP. rewrite Hidle in HP. cbn [app] in HP.
  assert (Hst2 : st2 = st1).
  { unfold st2, exec. rewrite setTokens_state. cbn [snd started_all token_specs
      flat_map foldl]. apply removed_all_unheld. intros id _.
    by rewrite HT, lookup_empty. }
  rewrite Hst2, HP. intros Horder.
  split; [apply setTokens_result|]. split; [done|]. split; [done|].
  intros id (c & -> & Hc)%elem_of_token_ids%list_elem_of_fmap.
  rewrite answered_resumed_all.
  destruct (resumed_all_lookup order (with_pending [] st1) (cr_id c))
    as [[Hnotin _]|(c' & Hc' & _ & ->)].
  - exfalso. apply Hnotin, list_elem_of_fmap_2. by rewrite Horder.
  - eexists. split; [done|]. split; [done|].
    rewrite Horder in Hc'.
    pose proof (token_specs_null E names) as Hnull.
    rewrite Forall_forall in Hnull. by apply Hnull.
Qed.

(** X14 on the initialised app: ["c"] tracked and dropped at once, the host
    answering in reverse. *)
Lemma setTokens_drop_before_answer_keeps_tokens_witness :
  let st1 := exec (setTokens sample_env ["c"] []) initialised_app in
  let st2 := exec (setTokens sample_env [] ["c"]) st1 in
  let order := rev (four_creations sample_env "c") in
  (TOKENS initialised_app = ∅ /\ pending initialised_app = [] /\
   order ≡ₚ pending st2) /\
  (result (setTokens sample_env [] ["c"]) st1 = Return tt /\
   st2 = st1 /\
   pending st2 = token_specs sample_env ["c"] /\
   forall id, token_of sample_env ["c"] id ->
     exists h, TOKENS (answered order st2) !! id = Some h /\
               tk_registered h = true /\ tk_value h = VNull) /\
  TOKENS (answered order st2) !! "c Currency" =
    Some {| tk_type := "string"; tk_title := "c Currency"; tk_value := VNull;
            tk_registered := true |}.
Proof.
  intros st1 st2 order.
  assert (H1 : TOKENS initialised_app = ∅) by reflexivity.
  assert (H2 : pending initialised_app = []) by reflexivity.
  assert (H3 : order ≡ₚ pending st2).
  { symmetry. apply (Permutation_rev (four_creations sample_env "c")). }
  split; [by repeat split|]. split.
  - exact (setTokens_drop_before_answer_keeps_tokens
             sample_env ["c"] initialised_app order H1 H2 H3).
  - vm_compute. reflexivity.
Defined.

(** ** Calls and answers, interleaved *)

Lemma registry_kept_held st st' id :
  registry_kept st st' -> held st id = true -> held st' id = true.
Proof.
  intros Hk. specialize (Hk id). unfold held.
  destruct (TOKENS st !! id); [|done]. by destruct Hk as (h' & -> & _).
Qed.

Lemma answer_held n st id : held st id = true -> held (answer n st) id = true.
Proof.
  unfold answer. destruct (pending st !! n) as [c|]; [|done].
  unfold exec. rewrite createToken_resumed_run. cbn [snd]. unfold held, resumed. cbn.
  destruct (decide (id = cr_id c)) as [->|Hne].
  - by rewrite lookup_insert_eq.
  - by rewrite lookup_insert_ne.
Qed.

(** X15. Whatever the host calls and whenever it answers the registrations
    the app waits for, an identifier that is in the registry stays in the
    registry.  The handle under it may be replaced, though: a calculation
    published while the registration of the token is pending registers the
    token a second time, as a text token, and the answer to the first
    registration then puts a number token with value [null] in its place. *)
Theorem registry_never_loses_an_identifier
    (E : Env) (L : Lib) (es : list app_event) (st : App) (id : string) :
  (if held st id then held (run_events E L es st) id = true else True) /\
  let st1 := exec (updateSettings sample_env (doc_tracking ["a"]) true) initialised_app in
  let st2 := exec (action_CALCULATION sample_env sample_lib "a" (VStr "add")
                     (VNum 1) (VNum 2)) st1 in
  let st3 := run_events sample_env sample_lib [HostAnswers 3] st2 in
  TOKENS st1 !! "a Calculation" = None /\
  TOKENS st2 !! "a Calculation" =
    Some {| tk_type := "string"; tk_title := "a Calculation"; tk_value := VNum 3;
            tk_registered := true |} /\
  TOKENS st3 !! "a Calculation" =
    Some {| tk_type := "number"; tk_title := "a Calculation"; tk_value := VNull;
            tk_registered := true |} /\
  List.filter (fun c => match c with
                        | HostCreateToken "a Calculation" _ _ => true
                        | _ => false
                        end) (host_calls st3) =
    [HostCreateToken "a Calculation" "number" "a Calculation";
     HostCreateToken "a Calculation" "string" "a Calculation"].
Proof.
  split.
  - destruct (held st id) eqn:Hheld; [|done].
    revert st Hheld. induction es as [|[c|n] es IH]; intros st Hheld; cbn [run_events].
    + done.
    + apply IH. eapply registry_kept_held; [apply run_call_kept|done].
    + apply IH. by apply answer_held.
  - vm_compute. by repeat split.
Qed.
